(** * History plugin: audit trail of a document store

    Shallow embedding of [src/models/plugins/history.plugin.ts].

    - JS values are the inductive [value]; a plain JS object with string
      keys (the result of [toObject()], a change map, an update patch) is a
      [gmap string value].
    - A Mongoose document in memory is the record [doc]; the stored
      collection of the entity model is an ordered list of
      (id, fields) pairs, in natural order.
    - Every hook and method runs in a state and exception monad [M]: an
      error keeps the state reached when it was thrown, so audit entries
      already persisted stay persisted, as they do in the database.
    - The registry [HistoryModelSingleton.models] lives in the state; the
      audit entries written so far are the log of the state. *)

From Stdlib Require Import ZArith String List Ascii Bool.
From stdpp Require Import base gmap strings list.

Open Scope string_scope.
Open Scope list_scope.
Set Warnings "-register-all -abstract-large-number".

(** ** JS values *)

Inductive value : Type :=
| VUndef
| VNull
| VBool (b : bool)
| VNum (z : Z)
| VStr (s : string)
| VDate (t : Z)
| VOid (hex : string)
| VObj (fields : list (string * value)).

Abbreviation obj := (gmap string value).

(** Deep equality, as Mongoose uses it to decide whether an assignment
    changes a path. *)
Fixpoint value_eqb (a b : value) : bool :=
  match a, b with
  | VUndef, VUndef | VNull, VNull => true
  | VBool x, VBool y => Bool.eqb x y
  | VNum x, VNum y | VDate x, VDate y => Z.eqb x y
  | VStr x, VStr y | VOid x, VOid y => String.eqb x y
  | VObj xs, VObj ys =>
      (fix go (xs ys : list (string * value)) : bool :=
         match xs, ys with
         | [], [] => true
         | (k, x) :: xs', (l, y) :: ys' =>
             String.eqb k l && value_eqb x y && go xs' ys'
         | _, _ => false
         end) xs ys
  | _, _ => false
  end.

(** The value of a key of a nested object ([o[k]]). *)
Fixpoint assoc_get (k : string) (l : list (string * value)) : option value :=
  match l with
  | [] => None
  | (k', v) :: l' => if String.eqb k k' then Some v else assoc_get k l'
  end.

(** JS truthiness ([if (v)]). *)
Definition truthy (v : value) : bool :=
  match v with
  | VUndef | VNull => false
  | VBool b => b
  | VNum z => negb (Z.eqb z 0)
  | VStr s => negb (String.eqb s "")
  | _ => true
  end.

(** ** The audit entry ([IHistoryDocument], [historySchema]) *)

Inductive action : Type :=
| create | update | softDelete | hardDelete | restore.

(** The object passed to [new HistoryModel({...})]. *)
Record raw_entry : Type := mkRaw {
  r_originalId : string;
  r_changes : obj;
  r_snapshot : option obj;
  r_modelName : string;
  r_action : action;
  r_modifiedBy : option value   (* [None] is [undefined] *)
}.

(** A persisted history document, after casting to [historySchema]. *)
Record entry : Type := mkEntry {
  originalId : string;
  changes : obj;
  snapshot : option obj;
  modelName : string;
  h_action : action;
  modifiedBy : option value
}.

(** ** Casting and validation of [historySchema] *)

Definition is_hex_digit (c : ascii) : bool :=
  let n := nat_of_ascii c in
  (Nat.leb 48 n && Nat.leb n 57) || (Nat.leb 97 n && Nat.leb n 102)
  || (Nat.leb 65 n && Nat.leb n 70).

Fixpoint all_hex (s : string) : bool :=
  match s with
  | EmptyString => true
  | String c s' => is_hex_digit c && all_hex s'
  end.

(** An ObjectId holds 12 bytes; its hex form reads back in lower case. *)
Definition lower_hex_char (c : ascii) : ascii :=
  let n := nat_of_ascii c in
  if Nat.leb 65 n && Nat.leb n 70 then ascii_of_nat (n + 32) else c.

Fixpoint lower_hex (s : string) : string :=
  match s with
  | EmptyString => EmptyString
  | String c s' => String (lower_hex_char c) (lower_hex s')
  end.

(** [new ObjectId(s)] on a string (bson 5 and later): 24 hex digits give the
    ObjectId of those bytes; any other string throws. *)
Definition objectid_of_string (s : string) : option value :=
  if Nat.eqb (String.length s) 24 && all_hex s then Some (VOid (lower_hex s)) else None.

(** [new ObjectId(v.toString())]: an ObjectId prints its hex; a number, a
    boolean or a date prints a string that is not 24 hex digits, and a
    plain object prints ["[object Object]"]. *)
Definition objectid_of_toString (v : value) : option value :=
  match v with
  | VStr s => objectid_of_string s
  | VOid h => Some (VOid h)
  | _ => None
  end.

(** Mongoose's [castObjectId] behind an ObjectId path: [null]/[undefined]
    pass through, an ObjectId is kept; a value with a truthy [_id] gives
    that [_id] when it is an ObjectId, else [new ObjectId(value._id.toString())];
    any other value gives [new ObjectId(value.toString())].  A throw is a
    cast error ([None]). *)
Definition cast_objectid (v : value) : option value :=
  match v with
  | VUndef => Some VUndef
  | VNull => Some VNull
  | VOid h => Some (VOid h)
  | VObj l =>
      let id := match assoc_get "_id" l with Some x => x | None => VUndef end in
      if truthy id then
        match id with
        | VOid h => Some (VOid h)
        | _ => objectid_of_toString id
        end
      else None
  | _ => objectid_of_toString v
  end.

Inductive err : Type :=
| ECast (path : string)        (* CastError inside a ValidationError *)
| ERequired (path : string)    (* required validator *)
| EStore (code : nat)          (* the store rejects a write (server error code) *)
| ENotFound.                   (* DocumentNotFoundError of [save()] *)

(** Validation run by [save()] on a new history document: [modelName] is a
    required string (the empty string fails it), [modifiedBy] is cast to an
    ObjectId.  [originalId], [changes] and [action] are always set by the
    plugin.  Mongoose gathers every failing path into one ValidationError;
    the error is represented here by its first failing path in the
    schema's order ([modelName] comes before [modifiedBy]), so with both
    failing it reads [ERequired "modelName"]. *)
Definition validate_raw (r : raw_entry) : entry + err :=
  if String.eqb (r_modelName r) "" then inr (ERequired "modelName")
  else
    let cast :=
      match r_modifiedBy r with
      | None => Some None
      | Some v => match cast_objectid v with
                  | Some VUndef => Some None
                  | Some v' => Some (Some v')
                  | None => None
                  end
      end in
    match cast with
    | None => inr (ECast "modifiedBy")
    | Some mb =>
        inl (mkEntry (r_originalId r) (r_changes r) (r_snapshot r)
                     (r_modelName r) (r_action r) mb)
    end.

(** ** Documents of the entity model *)

(** A Mongoose document in memory: its [_id], its field values (nested
    objects as [VObj]), the [isNew] flag, the paths its change tracker has
    marked as modified (the ['modify'] state of [$__.activePaths], without
    their parents), and the connection of its model ([doc.constructor.db]).
    Schema defaults are not modelled. *)
Record doc : Type := mkDoc {
  d_id : string;
  d_fields : obj;
  d_isNew : bool;
  d_modified : list string;
  d_db : nat
}.

(** [doc.toObject()]: a plain copy of the fields, with [_id]. *)
Definition toObject (d : doc) : obj := <["_id" := VOid (d_id d)]> (d_fields d).

(** [path.split('.')] *)
Fixpoint split_dot (s : string) : list string :=
  match s with
  | EmptyString => [EmptyString]
  | String c s' =>
      let rest := split_dot s' in
      if Ascii.eqb c "."%char then EmptyString :: rest
      else match rest with
           | r :: rs => String c r :: rs
           | [] => [String c EmptyString]
           end
  end.

Definition has_dot (s : string) : bool :=
  List.existsb (fun c => Ascii.eqb c "."%char) (list_ascii_of_string s).

Fixpoint get_in (v : value) (ks : list string) : value :=
  match ks with
  | [] => v
  | k :: ks' =>
      match v with
      | VObj l => match assoc_get k l with Some v' => get_in v' ks' | None => VUndef end
      | _ => VUndef
      end
  end.

(** [doc.get(path)]: a dotted path goes down through nested objects; a path
    that leads nowhere reads as [undefined]. *)
Definition doc_get (d : doc) (p : string) : value :=
  match split_dot p with
  | k :: ks => match toObject d !! k with Some v => get_in v ks | None => VUndef end
  | [] => VUndef
  end.

(** Mongoose's [parentPaths(path)]: ['a.b.c'] gives ['a'], ['a.b'], ['a.b.c']. *)
Fixpoint parent_paths_from (cur : string) (pieces : list string) : list string :=
  match pieces with
  | [] => []
  | x :: ps =>
      let cur' := if String.eqb cur "" then x else String.append cur (String.append "." x) in
      cur' :: parent_paths_from cur' ps
  end.

Definition parentPaths (p : string) : list string :=
  if negb (has_dot p) then [p] else parent_paths_from "" (split_dot p).

Definition add_new (acc : list string) (q : string) : list string :=
  if List.existsb (String.eqb q) acc then acc else acc ++ [q].

(** [doc.modifiedPaths()]: each modified path with all its parents, once
    each, in order of first appearance. *)
Definition modifiedPaths (d : doc) : list string :=
  fold_left (fun acc p => fold_left add_new (parentPaths p) acc) (d_modified d) [].

(** [doc[path] = v] for a top-level path (the plugin assigns only
    [deletedAt]): the change tracker marks the path when the value differs
    from the current one. *)
Definition doc_set (d : doc) (p : string) (v : value) : doc :=
  let changed := negb (value_eqb (doc_get d p) v) in
  mkDoc (d_id d) (<[p := v]> (d_fields d)) (d_isNew d)
        (if changed then d_modified d ++ [p] else d_modified d) (d_db d).

(** ** The history writers and the state *)

(** A history model: the connection it was compiled on, and the serial
    number of the [connection.model('History', historySchema)] call that
    built it (its identity). *)
Record writer : Type := mkWriter { w_conn : nat; w_serial : nat }.

Record St : Type := mkSt {
  st_models : gmap nat writer;           (* HistoryModelSingleton.models *)
  st_built : list nat;                   (* connections a writer was built for *)
  st_log : list (writer * entry);        (* persisted history documents *)
  st_db : list (string * obj)            (* the entity collection *)
}.

Definition entries_of (st : St) : list entry := map snd (st_log st).

(** ** A state and exception monad *)

Inductive res (A : Type) : Type := Ok (a : A) | Err (e : err).
Arguments Ok {A} a.
Arguments Err {A} e.

Definition M (A : Type) : Type := St -> St * res A.

Definition retM {A} (a : A) : M A := fun st => (st, Ok a).
Definition throwM {A} (e : err) : M A := fun st => (st, Err e).
Definition bindM {A B} (m : M A) (k : A -> M B) : M B :=
  fun st => match m st with
            | (st', Ok a) => k a st'
            | (st', Err e) => (st', Err e)
            end.
Definition getsM {A} (f : St -> A) : M A := fun st => (st, Ok (f st)).
Definition modifyM (f : St -> St) : M unit := fun st => (f st, Ok tt).

Notation "'do!' x <- m ; k" := (bindM m (fun x => k))
  (at level 200, x name, m at level 100, right associativity).
Declare Scope monad_scope.
Notation "m ;; k" := (bindM m (fun _ => k))
  (at level 100, right associativity) : monad_scope.
Open Scope monad_scope.

(** ** [HistoryModelSingleton.getModel] *)

(** [connection.model('History', historySchema)]: compiles a new model bound
    to the connection.  The connections are taken to hold no other
    ['History'] model: only this registry registers one, always with the
    one [historySchema], so [OverwriteModelError] is not raised. *)
Definition build_model (c : nat) : M writer :=
  fun st =>
    let w := mkWriter c (length (st_built st)) in
    (mkSt (st_models st) (st_built st ++ [c]) (st_log st) (st_db st), Ok w).

Definition set_model (c : nat) (w : writer) : M unit :=
  modifyM (fun st => mkSt (<[c := w]> (st_models st)) (st_built st)
                          (st_log st) (st_db st)).

Definition getModel (c : nat) : M writer :=
  do! has <- getsM (fun st => bool_decide (is_Some (st_models st !! c)));
  (if negb has then
     do! model <- build_model c;
     set_model c model
   else retM tt) ;;
  do! w <- getsM (fun st => st_models st !! c);
  match w with Some w => retM w | None => throwM (ERequired "models") end.

(** ** The actor context and the entity collection *)

(** Modelled from the spec: [AsyncStorageService.get] of the actor context
    provider, whose read contract is [get(key) -> value | absent] over the
    values bound for the current logical operation. *)
Definition storage_get (ctx : list (string * value)) (k : string) : option value :=
  match List.find (fun kv => String.eqb (fst kv) k) ctx with
  | Some (_, v) => Some v
  | None => None
  end.

Definition with_id (p : string * obj) : obj := <["_id" := VOid (fst p)]> (snd p).

(** A document read back from the collection ([find], [findOne]). *)
Definition hydrate (c : nat) (p : string * obj) : doc := mkDoc (fst p) (snd p) false [] c.

(** A query of the entity model: [getQuery()] is the filter, [getUpdate()]
    the update; [sort] is the query option of [findOneAndDelete] and
    [findOneAndUpdate] (an ascending sort on a numeric field); [upsert] is
    the option of the updates: unset ([None]), or set, with the [_id] the
    inserted document receives and the document MongoDB builds from the
    equality conditions of the filter before applying the update. *)
Record query : Type := mkQuery {
  q_filter : obj -> bool;
  q_sort : option string;
  q_update : obj;
  q_upsert : option (string * obj)
}.

Definition matches (q : query) (p : string * obj) : bool := q_filter q (with_id p).

(** MongoDB's choice of the one document a [findOneAnd*] operation acts
    on: the first match in natural order, or with a [sort] option the first
    match with the least sort key (a missing or non-numeric key sorts first). *)
Definition sort_key (f : string) (p : string * obj) : option Z :=
  match snd p !! f with Some (VNum z) => Some z | _ => None end.

Definition key_lt (a b : option Z) : bool :=
  match a, b with
  | None, Some _ => true
  | Some x, Some y => Z.ltb x y
  | _, _ => false
  end.

Fixpoint first_min (f : string) (best : string * obj) (l : list (string * obj))
  : string * obj :=
  match l with
  | [] => best
  | x :: l' => if key_lt (sort_key f x) (sort_key f best)
               then first_min f x l' else first_min f best l'
  end.

Definition pick (s : option string) (l : list (string * obj)) : option (string * obj) :=
  match l with
  | [] => None
  | x :: l' => match s with None => Some x | Some f => Some (first_min f x l') end
  end.

Definition set_db (f : list (string * obj) -> list (string * obj)) : M unit :=
  modifyM (fun st => mkSt (st_models st) (st_built st) (st_log st) (f (st_db st))).

Definition db_remove (id : string) (db : list (string * obj)) : list (string * obj) :=
  List.filter (fun p => negb (String.eqb (fst p) id)) db.

Definition db_upsert (id : string) (f : obj) (db : list (string * obj)) : list (string * obj) :=
  if List.existsb (fun p => String.eqb (fst p) id) db
  then map (fun p => if String.eqb (fst p) id then (id, f) else p) db
  else db ++ [(id, f)].

Definition db_find (id : string) (db : list (string * obj)) : option obj :=
  match List.find (fun p => String.eqb (fst p) id) db with
  | Some p => Some (snd p)
  | None => None
  end.

Fixpoint db_replace (id : string) (f : obj) (db : list (string * obj))
  : list (string * obj) :=
  match db with
  | [] => []
  | p :: db' => if String.eqb (fst p) id then (id, f) :: db' else p :: db_replace id f db'
  end.

(** ** The write of [doc.save()] *)

(** MongoDB's [$set] ([Some v]) and [$unset] ([None]) of a dotted path in a
    stored document: [$set] creates the missing objects on the way and
    fails (PathNotViable) through a value that is not an object; [$unset]
    does nothing there. *)
Fixpoint nest (ks : list string) (v : value) : value :=
  match ks with
  | [] => v
  | k :: ks' => VObj [(k, nest ks' v)]
  end.

Fixpoint assoc_set (k : string) (v : value) (l : list (string * value))
  : list (string * value) :=
  match l with
  | [] => [(k, v)]
  | (k', x) :: l' => if String.eqb k k' then (k, v) :: l' else (k', x) :: assoc_set k v l'
  end.

Fixpoint assoc_del (k : string) (l : list (string * value)) : list (string * value) :=
  match l with
  | [] => []
  | (k', x) :: l' => if String.eqb k k' then l' else (k', x) :: assoc_del k l'
  end.

Fixpoint update_in (l : list (string * value)) (k : string) (ks : list string)
    (ov : option value) : option (list (string * value)) :=
  match ks with
  | [] => match ov with Some v => Some (assoc_set k v l) | None => Some (assoc_del k l) end
  | k' :: ks' =>
      match assoc_get k l with
      | None => match ov with Some v => Some (assoc_set k (nest ks v) l) | None => Some l end
      | Some (VObj l') => option_map (fun l'' => assoc_set k (VObj l'') l) (update_in l' k' ks' ov)
      | Some _ => match ov with Some _ => None | None => Some l end
      end
  end.

Definition obj_update (o : obj) (p : string) (ov : option value) : option obj :=
  match split_dot p with
  | [] => Some o
  | k :: ks =>
      match ks with
      | [] => Some (match ov with Some v => <[k := v]> o | None => delete k o end)
      | k' :: ks' =>
          match o !! k with
          | None => Some (match ov with Some v => <[k := nest ks v]> o | None => o end)
          | Some (VObj l) => option_map (fun l' => <[k := VObj l']> o) (update_in l k' ks' ov)
          | Some _ => match ov with Some _ => None | None => Some o end
          end
      end
  end.

Fixpoint apply_ops (ops : list (string * option value)) (o : obj) : option obj :=
  match ops with
  | [] => Some o
  | (p, ov) :: ops' =>
      match obj_update o p ov with Some o' => apply_ops ops' o' | None => None end
  end.

(** [$__dirty()]: the modified paths with no modified parent. *)
Definition dirty_minimal (d : doc) : list string :=
  List.filter (fun p => negb (List.existsb (fun a => List.existsb (String.eqb a) (d_modified d))
                                           (removelast (parentPaths p))))
              (d_modified d).

(** [$__delta()]: [$unset] of a path now [undefined], [$set] of any other. *)
Definition save_delta (d : doc) : list (string * option value) :=
  map (fun p => (p, match doc_get d p with VUndef => None | v => Some v end)) (dirty_minimal d).

(** The version key, left at Mongoose's default. *)
Definition versionKey : string := "__v".

(** [$__handleSave] and the check of [$__save]: a new document is inserted
    whole with [__v: 0] (E11000 when its [_id] is taken); for another one,
    its delta is sent by [updateOne({_id})], and with no delta only a
    [findOne({_id})] is issued; either way a document no longer stored is a
    [DocumentNotFoundError].  [inr None]: nothing written. *)
Definition save_write (d : doc) (db : list (string * obj))
  : err + option (list (string * obj)) :=
  if d_isNew d then
    if List.existsb (fun p => String.eqb (fst p) (d_id d)) db then inl (EStore 11000)
    else inr (Some (db ++ [(d_id d, <[versionKey := VNum 0]> (d_fields d))]))
  else
    match save_delta d with
    | [] => match db_find (d_id d) db with Some _ => inr None | None => inl ENotFound end
    | ops =>
        match db_find (d_id d) db with
        | None => inl ENotFound
        | Some o =>
            match apply_ops ops o with
            | Some o' => inr (Some (db_replace (d_id d) o' db))
            | None => inl (EStore 28)
            end
        end
    end.

(** The document once saved: no longer new, its tracker reset, and the
    version key set when it was inserted. *)
Definition saved_doc (d : doc) : doc :=
  mkDoc (d_id d)
        (if d_isNew d then <[versionKey := VNum 0]> (d_fields d) else d_fields d)
        false [] (d_db d).

Section Plugin.

(** [options.modelName] *)
Variable opt_modelName : string.
(** The values bound in the actor context of the running operation. *)
Variable ctx : list (string * value).
(** The history store's answer to an insert: [Some code] when it fails
    (store unavailable, constraint violation), given the entries already
    persisted. *)
Variable store_error : list (writer * entry) -> writer * entry -> option nat.
(** [new Date()] *)
Variable now : Z.
(** The update engine of the store applying an update document to a
    stored document (outside the plugin). *)
Variable apply_update : obj -> obj -> obj.

(** The connection of the entity model ([this.model.db]). *)
Variable model_db : nat.

(** [new HistoryModel({...}).save()]: validation, then the insert. *)
Definition history_save (w : writer) (r : raw_entry) : M unit :=
  fun st =>
    match validate_raw r with
    | inr e => (st, Err e)
    | inl e =>
        match store_error (st_log st) (w, e) with
        | Some c => (st, Err (EStore c))
        | None => (mkSt (st_models st) (st_built st) (st_log st ++ [(w, e)]) (st_db st),
                   Ok tt)
        end
    end.

Definition createHistoryEntry (d : doc) (a : action) (chg : obj) (snap : option obj)
  : M unit :=
  let currentUserId := storage_get ctx "currentUserId" in
  let connection := d_db d in
  do! HistoryModel <- getModel connection;
  history_save HistoryModel
    (mkRaw (d_id d) chg snap opt_modelName a currentUserId).

(** *** [schema.pre('save')] *)

Definition modified_changes (d : doc) : obj :=
  fold_left (fun (acc : obj) (path : string) => <[path := doc_get d path]> acc)
            (modifiedPaths d) ∅.

Definition pre_save (d : doc) : M unit :=
  let a := if d_isNew d then create else update in
  let chg := if d_isNew d then toObject d else modified_changes d in
  let snap := toObject d in
  createHistoryEntry d a chg (Some snap).

(** [doc.save()]: the pre hook, then the write of the document. *)
Definition save (d : doc) : M doc :=
  pre_save d ;;
  do! db <- getsM st_db;
  match save_write d db with
  | inl e => throwM e
  | inr None => retM (saved_doc d)
  | inr (Some db') => set_db (fun _ => db') ;; retM (saved_doc d)
  end.

(** *** [schema.methods.softDelete] and [schema.methods.restore] *)

Definition softDelete_m (d : doc) : M doc :=
  let d1 := doc_set d "deletedAt" (VDate now) in
  do! d2 <- save d1;
  let snap := toObject d2 in
  createHistoryEntry d2 softDelete {[ "deletedAt" := doc_get d2 "deletedAt" ]} (Some snap) ;;
  retM d2.

Definition restore_m (d : doc) : M doc :=
  let d1 := doc_set d "deletedAt" VNull in
  do! d2 <- save d1;
  let snap := toObject d2 in
  createHistoryEntry d2 restore {[ "deletedAt" := VNull ]} (Some snap) ;;
  retM d2.

(** *** [schema.pre('deleteOne', { document: true, query: false })] *)

Definition pre_deleteOne (d : doc) : M unit :=
  let snap := toObject d in
  createHistoryEntry d hardDelete ∅ (Some snap).

(** [doc.deleteOne()] *)
Definition deleteOne (d : doc) : M unit :=
  pre_deleteOne d ;;
  set_db (db_remove (d_id d)).

(** *** Query middleware *)

(** [this.model.find(filter)] and [this.model.findOne(filter)]: a new query
    with the filter only. *)
Definition model_find (filter : obj -> bool) : M (list doc) :=
  getsM (fun st => map (hydrate model_db)
                       (List.filter (fun p => filter (with_id p)) (st_db st))).

Definition model_findOne (filter : obj -> bool) : M (option doc) :=
  do! docs <- model_find filter;
  retM (head docs).

Fixpoint for_each (docs : list doc) (body : doc -> M unit) : M unit :=
  match docs with
  | [] => retM tt
  | d :: rest => body d ;; for_each rest body
  end.

Definition pre_findOneAndDelete (q : query) : M unit :=
  do! found <- model_findOne (q_filter q);
  match found with
  | Some d =>
      let snap := toObject d in
      createHistoryEntry d hardDelete ∅ (Some snap)
  | None => retM tt
  end.

Definition pre_findOneAndUpdate (q : query) : M unit :=
  do! found <- model_findOne (q_filter q);
  let updates := q_update q in
  match found with
  | Some d =>
      let snap := updates ∪ toObject d in
      createHistoryEntry d update updates (Some snap)
  | None => retM tt
  end.

Definition pre_deleteMany (q : query) : M unit :=
  do! docs <- model_find (q_filter q);
  for_each docs (fun d =>
    let snap := toObject d in
    createHistoryEntry d hardDelete ∅ (Some snap)).

Definition pre_updateMany (q : query) : M unit :=
  let updates := q_update q in
  do! docs <- model_find (q_filter q);
  for_each docs (fun d =>
    let snap := updates ∪ toObject d in
    createHistoryEntry d update updates (Some snap)).

(** The query operations: the pre hook, then (when it succeeds) the
    operation itself as MongoDB performs it. *)
Definition target (q : query) : M (option (string * obj)) :=
  getsM (fun st => pick (q_sort q) (List.filter (matches q) (st_db st))).

(** The operations themselves, run once their pre hooks call [next()]. *)
Definition findOneAndDelete_op (q : query) : M (option (string * obj)) :=
  do! t <- target q;
  match t with
  | Some p => set_db (db_remove (fst p)) ;; retM (Some p)
  | None => retM None
  end.

(** With no match and [upsert], the document is inserted; the result is
    the document before the update ([new: false]). *)
Definition findOneAndUpdate_op (q : query) : M (option (string * obj)) :=
  do! t <- target q;
  match t with
  | Some p =>
      set_db (db_upsert (fst p) (apply_update (q_update q) (snd p))) ;;
      retM (Some p)
  | None =>
      match q_upsert q with
      | Some (id, seed) => set_db (fun db => db ++ [(id, apply_update (q_update q) seed)]) ;;
                           retM None
      | None => retM None
      end
  end.

Definition findOneAndDelete (q : query) : M (option (string * obj)) :=
  pre_findOneAndDelete q ;; findOneAndDelete_op q.

Definition findOneAndUpdate (q : query) : M (option (string * obj)) :=
  pre_findOneAndUpdate q ;; findOneAndUpdate_op q.

Definition deleteMany (q : query) : M unit :=
  pre_deleteMany q ;;
  set_db (List.filter (fun p => negb (matches q p))).

(** The write of [updateMany]: every match updated, or with no match and
    [upsert] one document inserted. *)
Definition update_write (q : query) (db : list (string * obj)) : list (string * obj) :=
  if List.existsb (matches q) db then
    map (fun p => if matches q p then (fst p, apply_update (q_update q) (snd p)) else p) db
  else
    match q_upsert q with
    | Some (id, seed) => db ++ [(id, apply_update (q_update q) seed)]
    | None => db
    end.

Definition updateMany (q : query) : M unit :=
  pre_updateMany q ;;
  set_db (update_write q).

End Plugin.

(** * Properties *)

(** ** The writer registry *)

(** The registry invariant: each cached writer was built for the connection
    it is cached under, by the construction recorded at its serial; no
    connection has had two writers built; every construction is cached. *)
Definition reg_inv (st : St) : Prop :=
  (forall c w, st_models st !! c = Some w ->
     w_conn w = c /\ st_built st !! w_serial w = Some c) /\
  NoDup (st_built st) /\
  (forall c, c ∈ st_built st -> is_Some (st_models st !! c)).

Definition empty_st : St := mkSt ∅ [] [] [].

Lemma reg_inv_empty : reg_inv empty_st.
Proof.
  split; [|split].
  - intros c w H. simpl in H. rewrite lookup_empty in H. discriminate.
  - constructor.
  - intros c H. simpl in H. apply elem_of_nil in H. contradiction.
Qed.

Lemma getModel_spec (st : St) (c : nat) :
  reg_inv st ->
  exists w st',
    getModel c st = (st', Ok w) /\ reg_inv st' /\
    st_models st' !! c = Some w /\ w_conn w = c /\
    (is_Some (st_models st !! c) -> st' = st) /\
    st_log st' = st_log st /\ st_db st' = st_db st /\
    (forall c', c' <> c -> st_models st' !! c' = st_models st !! c').
Proof.
  intros (Hw & Hnd & Hb).
  unfold getModel, bindM, getsM, retM.
  destruct (st_models st !! c) as [w|] eqn:E.
  - rewrite bool_decide_true by eauto. simpl. rewrite E.
    exists w, st. destruct (Hw c w E) as [Hc _].
    split; [reflexivity|]. split; [exact (conj Hw (conj Hnd Hb))|].
    repeat split; auto.
  - rewrite bool_decide_false by (intros [? H]; discriminate). simpl.
    unfold set_model, modifyM. simpl. rewrite lookup_insert_eq.
    eexists _, _. split; [reflexivity|].
    split; [|split; [cbn [st_models]; apply lookup_insert_eq|]];
      cbn [st_models st_built st_log st_db w_conn w_serial].
    + split; [|split].
      * intros c' w' H'. cbn [st_models st_built] in *. destruct (decide (c' = c)) as [->|Hne].
        -- rewrite lookup_insert_eq in H'. injection H' as <-.
           cbn [w_conn w_serial].
           split; [reflexivity|]. rewrite lookup_app_r by lia.
           rewrite Nat.sub_diag. reflexivity.
        -- rewrite lookup_insert_ne in H' by congruence.
           destruct (Hw c' w' H') as [Hc Hs]. split; [exact Hc|].
           apply lookup_app_l_Some. exact Hs.
      * cbn [st_built]. apply NoDup_app. split; [exact Hnd|]. split; [|apply NoDup_singleton].
        intros x Hx Hx'. apply list_elem_of_singleton in Hx'. subst x.
        destruct (Hb c Hx) as [? H]. congruence.
      * intros c' Hc'. cbn [st_models st_built] in *. apply elem_of_app in Hc' as [Hc'|Hc'].
        -- destruct (decide (c' = c)) as [->|Hne].
           ++ rewrite lookup_insert_eq. eauto.
           ++ rewrite lookup_insert_ne by congruence. auto.
        -- apply list_elem_of_singleton in Hc'. subst c'.
           rewrite lookup_insert_eq. eauto.
    + split; [reflexivity|]. split; [intros [? H]; discriminate|].
      split; [reflexivity|]. split; [reflexivity|].
      intros c' Hne. rewrite lookup_insert_ne by congruence. reflexivity.
Qed.

(** C6: resolving the writer of a connection twice returns the same writer
    and builds nothing the second time; resolving it for two distinct
    connections returns two distinct writers; and no connection ever has a
    second writer built (the registry invariant, with its duplicate-free
    construction record, is kept). *)
Theorem getModel_same_and_distinct (st : St) (c1 c2 : nat) :
  reg_inv st ->
  exists w1 st1 w2 st2,
    getModel c1 st = (st1, Ok w1) /\ getModel c2 st1 = (st2, Ok w2) /\
    (c1 = c2 -> w2 = w1 /\ st2 = st1) /\
    (c1 <> c2 -> w1 <> w2) /\
    reg_inv st2.
Proof.
  intros Hinv.
  destruct (getModel_spec st c1 Hinv)
    as (w1 & st1 & E1 & Hinv1 & L1 & C1 & _ & _ & _ & _).
  destruct (getModel_spec st1 c2 Hinv1)
    as (w2 & st2 & E2 & Hinv2 & L2 & C2 & Hsame & _ & _ & _).
  exists w1, st1, w2, st2.
  split; [exact E1|]. split; [exact E2|].
  split; [|split; [|exact Hinv2]].
  - intros <-. rewrite Hsame in L2 by eauto. split; [congruence|].
    apply Hsame. eauto.
  - intros Hne Heq. subst w2. congruence.
Qed.

Lemma getModel_same_and_distinct_witness :
  reg_inv empty_st /\
  exists w1 st1 w2 st2,
    getModel 1 empty_st = (st1, Ok w1) /\ getModel 2 st1 = (st2, Ok w2) /\
    (1 = 2 -> w2 = w1 /\ st2 = st1) /\ (1 <> 2 -> w1 <> w2) /\ reg_inv st2.
Proof.
  split; [exact reg_inv_empty|].
  apply (getModel_same_and_distinct empty_st 1 2 reg_inv_empty).
Defined.

(** ** [createHistoryEntry] *)

Lemma getModel_ok (st : St) (c : nat) :
  exists w st', getModel c st = (st', Ok w) /\
    st_log st' = st_log st /\ st_db st' = st_db st.
Proof.
  unfold getModel, bindM, getsM, retM.
  destruct (st_models st !! c) as [w|] eqn:E.
  - rewrite bool_decide_true by eauto. simpl. rewrite E. eauto.
  - rewrite bool_decide_false by (intros [? H]; discriminate). simpl.
    unfold set_model, modifyM. cbn [st_models]. rewrite lookup_insert_eq.
    eauto.
Qed.

Lemma validate_raw_fields (r : raw_entry) (e : entry) :
  validate_raw r = inl e ->
  originalId e = r_originalId r /\ changes e = r_changes r /\
  snapshot e = r_snapshot r /\ modelName e = r_modelName r /\
  h_action e = r_action r.
Proof.
  unfold validate_raw. destruct (String.eqb (r_modelName r) ""); [discriminate|].
  destruct (r_modifiedBy r) as [v|].
  - destruct (cast_objectid v) as [[]|]; try discriminate;
      intros H; injection H as <-; simpl; auto.
  - intros H; injection H as <-; simpl; auto.
Qed.

Section Entries.
Variables (opt_modelName : string) (ctx : list (string * value))
  (store_error : list (writer * entry) -> writer * entry -> option nat).

Definition raw_of (d : doc) (a : action) (chg : obj) (snap : option obj) : raw_entry :=
  mkRaw (d_id d) chg snap opt_modelName a (storage_get ctx "currentUserId").

(** A successful [createHistoryEntry] appends exactly one entry, the
    validated form of the object the plugin builds, and leaves the
    entity collection alone. *)
Lemma createHistoryEntry_ok (d : doc) (a : action) (chg : obj) (snap : option obj)
    (st st' : St) (u : unit) :
  createHistoryEntry opt_modelName ctx store_error d a chg snap st = (st', Ok u) ->
  exists w e,
    validate_raw (raw_of d a chg snap) = inl e /\
    store_error (st_log st) (w, e) = None /\
    st_log st' = st_log st ++ [(w, e)] /\ st_db st' = st_db st.
Proof.
  destruct (getModel_ok st (d_db d)) as (w & st1 & E & Hl & Hd).
  unfold createHistoryEntry, bindM. rewrite E.
  unfold history_save. fold (raw_of d a chg snap).
  destruct (validate_raw (raw_of d a chg snap)) as [e|er]; [|discriminate].
  destruct (store_error (st_log st1) (w, e)) eqn:Es; [discriminate|].
  intros H. injection H as <- _. exists w, e. rewrite Hl in Es.
  simpl. rewrite Hl, Hd. auto.
Qed.

(** A failing [createHistoryEntry] persists nothing and leaves the entity
    collection alone; the error is the validation error or the store's. *)
Lemma createHistoryEntry_err (d : doc) (a : action) (chg : obj) (snap : option obj)
    (st st' : St) (er : err) :
  createHistoryEntry opt_modelName ctx store_error d a chg snap st = (st', Err er) ->
  st_log st' = st_log st /\ st_db st' = st_db st /\
  (validate_raw (raw_of d a chg snap) = inr er \/
   exists w e c, validate_raw (raw_of d a chg snap) = inl e /\
     store_error (st_log st) (w, e) = Some c /\ er = EStore c).
Proof.
  destruct (getModel_ok st (d_db d)) as (w & st1 & E & Hl & Hd).
  unfold createHistoryEntry, bindM. rewrite E.
  unfold history_save. fold (raw_of d a chg snap).
  destruct (validate_raw (raw_of d a chg snap)) as [e|er'].
  - destruct (store_error (st_log st1) (w, e)) as [c|] eqn:Es; [|discriminate].
    intros H. injection H as <- <-. rewrite Hl in Es.
    split; [exact Hl|]. split; [exact Hd|]. right. eauto 6.
  - intros H. injection H as <- <-. auto.
Qed.

End Entries.

(** ** Saving a document *)

Lemma modified_changes_fold (d : doc) (l : list string) (acc : obj) (p : string) :
  fold_left (fun (acc : obj) (path : string) => <[path := doc_get d path]> acc) l acc !! p =
  if bool_decide (p ∈ l) then Some (doc_get d p) else acc !! p.
Proof.
  revert acc. induction l as [|x l IH]; intros acc; cbn [fold_left].
  - rewrite bool_decide_false by (intros H; apply elem_of_nil in H; exact H).
    reflexivity.
  - rewrite IH. destruct (decide (p = x)) as [->|Hne].
    + rewrite lookup_insert_eq.
      rewrite (bool_decide_true (x ∈ x :: l)) by (left).
      destruct (bool_decide (x ∈ l)); reflexivity.
    + rewrite lookup_insert_ne by congruence.
      assert (Hiff : p ∈ x :: l <-> p ∈ l).
      { rewrite elem_of_cons. split; [intros [H|H]; [congruence|exact H]|auto]. }
      destruct (bool_decide (p ∈ l)) eqn:B1;
      destruct (bool_decide (p ∈ x :: l)) eqn:B2; try reflexivity.
      * apply bool_decide_eq_true in B1. apply bool_decide_eq_false in B2. tauto.
      * apply bool_decide_eq_false in B1. apply bool_decide_eq_true in B2. tauto.
Qed.

Lemma modified_changes_lookup (d : doc) (p : string) :
  modified_changes d !! p =
  if bool_decide (p ∈ modifiedPaths d) then Some (doc_get d p) else None.
Proof.
  unfold modified_changes. rewrite modified_changes_fold.
  rewrite lookup_empty. reflexivity.
Qed.

Section Saving.
Variables (opt_modelName : string) (ctx : list (string * value))
  (store_error : list (writer * entry) -> writer * entry -> option nat).

Lemma save_ok (d d' : doc) (st st' : St) :
  save opt_modelName ctx store_error d st = (st', Ok d') ->
  exists w e,
    validate_raw (raw_of opt_modelName ctx d (if d_isNew d then create else update)
                    (if d_isNew d then toObject d else modified_changes d)
                    (Some (toObject d))) = inl e /\
    st_log st' = st_log st ++ [(w, e)] /\
    match save_write d (st_db st) with
    | inr None => st_db st' = st_db st
    | inr (Some db') => st_db st' = db'
    | inl _ => False
    end /\
    d' = saved_doc d.
Proof.
  unfold save, pre_save, bindM at 1.
  destruct (createHistoryEntry opt_modelName ctx store_error d _ _ _ st)
    as [st1 [u|er]] eqn:E; [|discriminate].
  destruct (createHistoryEntry_ok _ _ _ _ _ _ _ _ _ _ E) as (w & e & V & _ & Hl & Hd).
  unfold bindM at 1, getsM. cbv beta iota. rewrite Hd.
  destruct (save_write d (st_db st)) as [er|[db'|]].
  - unfold throwM. discriminate.
  - unfold bindM, set_db, modifyM, retM. intros H. injection H as <- <-.
    exists w, e. simpl. auto.
  - unfold retM. intros H. injection H as <- <-. exists w, e. auto.
Qed.

(** C1: saving a new document writes exactly one entry, a [create] entry
    whose changes are the document's full field map ([toObject()]) and
    whose snapshot is that same map. *)
Theorem save_new_logs_create (d d' : doc) (st st' : St) :
  d_isNew d = true ->
  save opt_modelName ctx store_error d st = (st', Ok d') ->
  exists w e,
    st_log st' = st_log st ++ [(w, e)] /\
    h_action e = create /\ originalId e = d_id d /\
    changes e = toObject d /\ snapshot e = Some (toObject d).
Proof.
  intros Hnew Hs.
  destruct (save_ok d d' st st' Hs) as (w & e & V & Hl & _ & _).
  rewrite Hnew in V. apply validate_raw_fields in V as (Hi & Hc & Hsn & _ & Ha).
  exists w, e. simpl in *. auto.
Qed.

(** C2: saving a document that is not new writes exactly one [update]
    entry; its changes map has a key for exactly the paths the change
    tracker reports ([modifiedPaths()]: each modified path and its
    parents), each bound to the document's current value at that path
    ([doc.get(path)], down nested objects for a dotted path), and its
    snapshot is the full document. *)
Theorem save_existing_logs_update (d d' : doc) (st st' : St) :
  d_isNew d = false ->
  save opt_modelName ctx store_error d st = (st', Ok d') ->
  exists w e,
    st_log st' = st_log st ++ [(w, e)] /\
    h_action e = update /\ originalId e = d_id d /\
    (forall p, p ∈ modifiedPaths d -> changes e !! p = Some (doc_get d p)) /\
    (forall p, p ∉ modifiedPaths d -> changes e !! p = None) /\
    snapshot e = Some (toObject d).
Proof.
  intros Hold Hs.
  destruct (save_ok d d' st st' Hs) as (w & e & V & Hl & _ & _).
  rewrite Hold in V. apply validate_raw_fields in V as (Hi & Hc & Hsn & _ & Ha).
  exists w, e. simpl in *.
  split; [exact Hl|]. split; [exact Ha|]. split; [exact Hi|].
  split; [|split; [|exact Hsn]]; intros p Hp; rewrite Hc, modified_changes_lookup.
  - rewrite bool_decide_true by exact Hp. reflexivity.
  - rewrite bool_decide_false by exact Hp. reflexivity.
Qed.

End Saving.

(** ** Concrete inputs *)

Definition widget_id : string := "0000000000000000000000a1".
Definition widget_new : doc := mkDoc widget_id {[ "name" := VStr "a" ]} true [] 1.
Definition widget_renamed : doc :=
  doc_set (mkDoc widget_id {[ "name" := VStr "a" ]} false [] 1) "name" (VStr "b").
(** The collection holding the widget as saved. *)
Definition saved_st : St := mkSt ∅ [] [] [(widget_id, {[ "name" := VStr "a" ]})].
Definition no_failure : list (writer * entry) -> writer * entry -> option nat :=
  fun _ _ => None.

Definition res_val {A} (dflt : A) (r : res A) : A :=
  match r with Ok a => a | Err _ => dflt end.

Lemma save_new_logs_create_witness :
  let r := save "Widget" [] no_failure widget_new empty_st in
  d_isNew widget_new = true /\
  exists w e,
    st_log (fst r) = st_log empty_st ++ [(w, e)] /\
    h_action e = create /\ originalId e = d_id widget_new /\
    changes e = toObject widget_new /\ snapshot e = Some (toObject widget_new).
Proof.
  intros r. split; [reflexivity|].
  apply (save_new_logs_create "Widget" [] no_failure widget_new
           (res_val widget_new (snd r)) empty_st (fst r)); reflexivity.
Defined.

Lemma save_existing_logs_update_witness :
  let r := save "Widget" [] no_failure widget_renamed saved_st in
  d_isNew widget_renamed = false /\
  exists w e,
    st_log (fst r) = st_log saved_st ++ [(w, e)] /\
    h_action e = update /\ originalId e = d_id widget_renamed /\
    (forall p, p ∈ modifiedPaths widget_renamed ->
       changes e !! p = Some (doc_get widget_renamed p)) /\
    (forall p, p ∉ modifiedPaths widget_renamed -> changes e !! p = None) /\
    snapshot e = Some (toObject widget_renamed).
Proof.
  intros r. split; [reflexivity|].
  apply (save_existing_logs_update "Widget" [] no_failure widget_renamed
           (res_val widget_renamed (snd r)) saved_st (fst r)); reflexivity.
Defined.

(** ** The sequential loop of the bulk hooks *)

Section Bulk.
Variables (opt_modelName : string) (ctx : list (string * value))
  (store_error : list (writer * entry) -> writer * entry -> option nat).

(** The [k]-th write of a loop fails: validation rejects its object, or the
    store rejects its entry given the entries persisted before it. *)
Definition write_fails (log : list (writer * entry)) (r : raw_entry) (er : err) : Prop :=
  validate_raw r = inr er \/
  exists w e c, validate_raw r = inl e /\ store_error log (w, e) = Some c /\ er = EStore c.

(** Running the loop: the entries persisted are, in the order of the
    documents, the validated objects of a prefix of them, each write seeing
    all the earlier ones already persisted; it stops at the first failing
    write; the entity collection is not touched. *)
Lemma for_each_log (R : doc -> raw_entry) (docs : list doc) (st st' : St) (r : res unit) :
  for_each docs (fun d => createHistoryEntry opt_modelName ctx store_error d
                    (r_action (R d)) (r_changes (R d)) (r_snapshot (R d))) st = (st', r) ->
  (forall d, raw_of opt_modelName ctx d (r_action (R d)) (r_changes (R d))
                    (r_snapshot (R d)) = R d) ->
  exists L : list (writer * entry),
    st_log st' = st_log st ++ L /\ st_db st' = st_db st /\
    length L <= length docs /\
    Forall2 (fun d we => validate_raw (R d) = inl (snd we)) (firstn (length L) docs) L /\
    (forall i we d, L !! i = Some we -> docs !! i = Some d ->
       store_error (st_log st ++ firstn i L) we = None) /\
    (r = Ok tt -> length L = length docs) /\
    (forall er, r = Err er -> exists d, docs !! length L = Some d /\
                 write_fails (st_log st ++ L) (R d) er).
Proof.
  revert st. induction docs as [|d docs IH]; intros st Hrun HR.
  - simpl in Hrun. injection Hrun as <- <-. exists [].
    rewrite app_nil_r. repeat split; simpl; auto.
    + intros i we d H. rewrite lookup_nil in H. discriminate.
    + intros er H. discriminate.
  - simpl in Hrun. unfold bindM at 1 in Hrun.
    destruct (createHistoryEntry opt_modelName ctx store_error d _ _ _ st)
      as [st1 [u|er]] eqn:E.
    + destruct (createHistoryEntry_ok _ _ _ _ _ _ _ _ _ _ E) as (w & e & V & Hs & Hl & Hd).
      rewrite HR in V.
      destruct (IH st1 Hrun HR) as (L & Hl' & Hd' & Hlen & HF & Hpre & Hok & Herr).
      exists ((w, e) :: L). rewrite Hl' , Hl, <- app_assoc. simpl.
      split; [reflexivity|]. split; [congruence|]. split; [lia|].
      split; [constructor; auto|]. split; [|split].
      * intros [|i] we d' H1 H2; simpl in H1, H2.
        -- injection H1 as <-. simpl. rewrite app_nil_r. exact Hs.
        -- simpl.
           replace (st_log st ++ (w, e) :: firstn i L) with (st_log st1 ++ firstn i L)
             by (rewrite Hl, <- app_assoc; reflexivity).
           eapply Hpre; eauto.
      * intros Hr. rewrite (Hok Hr). reflexivity.
      * intros er Hr. destruct (Herr er Hr) as (d' & Hd1 & Hf).
        exists d'. split; [exact Hd1|]. rewrite Hl, <- app_assoc in Hf. exact Hf.
    + injection Hrun as <- <-.
      destruct (createHistoryEntry_err _ _ _ _ _ _ _ _ _ _ E) as (Hl & Hd & Hw).
      rewrite HR in Hw. exists [].
      rewrite (app_nil_r (st_log st)). split; [exact Hl|]. split; [exact Hd|].
      split; [simpl; lia|]. split; [constructor|].
      split; [intros i we d' H; rewrite lookup_nil in H; discriminate|].
      split; [discriminate|].
      intros er' H. injection H as <-. exists d. split; [reflexivity|].
      exact Hw.
Qed.

End Bulk.

(** ** The bulk pathways *)

(** The documents a bulk hook fetches, in fetch order. *)
Definition matched (model_db : nat) (q : query) (st : St) : list doc :=
  map (hydrate model_db) (List.filter (matches q) (st_db st)).

(** The outcome of a bulk pathway over [docs]: the entries persisted are the
    validated objects of a prefix of [docs], in fetch order, each written
    after the previous one is persisted; on success the prefix is all of
    [docs] and the collection becomes [db_after]; on an error the prefix
    stops right before the document whose write failed, and the collection
    is untouched. *)
Definition bulk_outcome
    (store_error : list (writer * entry) -> writer * entry -> option nat)
    (R : doc -> raw_entry) (docs : list doc) (st st' : St) (r : res unit)
    (db_after : list (string * obj)) : Prop :=
  exists L : list (writer * entry),
    st_log st' = st_log st ++ L /\
    Forall2 (fun d we => validate_raw (R d) = inl (snd we)) (firstn (length L) docs) L /\
    (forall i we d, L !! i = Some we -> docs !! i = Some d ->
       store_error (st_log st ++ firstn i L) we = None) /\
    (r = Ok tt -> length L = length docs /\ st_db st' = db_after) /\
    (forall er, r = Err er ->
       length L < length docs /\ st_db st' = st_db st /\
       exists d, docs !! length L = Some d /\
                 write_fails store_error (st_log st ++ L) (R d) er).

Section BulkClaims.
Variables (opt_modelName : string) (ctx : list (string * value))
  (store_error : list (writer * entry) -> writer * entry -> option nat)
  (apply_update : obj -> obj -> obj) (model_db : nat).

Lemma bulk_outcome_of_loop (R : doc -> raw_entry) (docs : list doc) (st st1 : St)
    (r : res unit) (db_f : list (string * obj) -> list (string * obj)) :
  (forall d, raw_of opt_modelName ctx d (r_action (R d)) (r_changes (R d))
                    (r_snapshot (R d)) = R d) ->
  for_each docs (fun d => createHistoryEntry opt_modelName ctx store_error d
                    (r_action (R d)) (r_changes (R d)) (r_snapshot (R d))) st = (st1, r) ->
  bulk_outcome store_error R docs st
    (match r with Ok _ => mkSt (st_models st1) (st_built st1) (st_log st1) (db_f (st_db st1))
                | Err _ => st1 end) r (db_f (st_db st)).
Proof.
  intros HR Hrun.
  destruct (for_each_log _ _ _ R docs st st1 r Hrun HR)
    as (L & Hl & Hd & Hlen & HF & Hpre & Hok & Herr).
  exists L. destruct r as [[]|er]; simpl.
  - split; [exact Hl|]. split; [exact HF|]. split; [exact Hpre|].
    split; [intros _; split; [exact (Hok eq_refl)|rewrite Hd; reflexivity]|].
    intros er0 H0. discriminate.
  - split; [exact Hl|]. split; [exact HF|]. split; [exact Hpre|].
    split; [discriminate|].
    intros er' H. destruct (Herr er' H) as (d & Hd1 & Hf).
    split; [apply lookup_lt_Some in Hd1; exact Hd1|]. split; [exact Hd|]. eauto.
Qed.


Lemma updateMany_outcome (q : query) (st : St) :
  let '(st', r) := updateMany opt_modelName ctx store_error apply_update model_db q st in
  bulk_outcome store_error
    (fun d => raw_of opt_modelName ctx d update (q_update q)
                     (Some (q_update q ∪ toObject d)))
    (matched model_db q st) st st' r
    (update_write apply_update q (st_db st)).
Proof.
  unfold updateMany, pre_updateMany, model_find, getsM, bindM, set_db, modifyM.
  cbv beta iota.
  destruct (for_each _ _ st) as [st1 r] eqn:E.
  pose proof (bulk_outcome_of_loop
    (fun d => raw_of opt_modelName ctx d update (q_update q)
                     (Some (q_update q ∪ toObject d)))
    (matched model_db q st) st st1 r
    (update_write apply_update q)
    (fun d => eq_refl) E) as H.
  destruct r as [[]|]; exact H.
Qed.


End BulkClaims.

(** ** The query-based single pathways *)

Definition doc_a : string * obj := ("0000000000000000000000aa", {[ "n" := VNum 2 ]}).
Definition doc_b : string * obj := ("0000000000000000000000bb", {[ "n" := VNum 1 ]}).
Definition two_docs_st : St := mkSt ∅ [] [] [doc_a; doc_b].

(** [Model.findOneAndDelete({}, { sort: { n: 1 } })]: delete the document
    with the least [n]. *)
Definition delete_least_n : query := mkQuery (fun _ => true) (Some "n") ∅ None.

(** C3 (failing input): with a [sort] option the hook of [findOneAndDelete]
    fetches the first match in natural order ([getQuery()] drops the sort),
    while the operation deletes the first match in sort order: the one
    [hardDelete] entry written is for [doc_a], the document deleted is
    [doc_b], which gets no entry. *)
Theorem findOneAndDelete_sort_logs_other_document :
  let r := findOneAndDelete "Widget" [] no_failure 1 delete_least_n two_docs_st in
  snd r = Ok (Some doc_b) /\ st_db (fst r) = [doc_a] /\
  map originalId (entries_of (fst r)) = [fst doc_a] /\
  map h_action (entries_of (fst r)) = [hardDelete].
Proof. vm_compute. repeat split; reflexivity. Qed.

Section QuerySingle.
Variables (opt_modelName : string) (ctx : list (string * value))
  (store_error : list (writer * entry) -> writer * entry -> option nat)
  (apply_update : obj -> obj -> obj) (model_db : nat).

(** Without a [sort] option, the document logged by the hook of
    [findOneAndDelete] is the document deleted: one [hardDelete] entry with
    empty changes and the full stored document as snapshot. *)
Lemma findOneAndDelete_nosort_ok (q : query) (st st' : St) (p : string * obj) :
  q_sort q = None ->
  findOneAndDelete opt_modelName ctx store_error model_db q st = (st', Ok (Some p)) ->
  exists w e,
    st_log st' = st_log st ++ [(w, e)] /\ st_db st' = db_remove (fst p) (st_db st) /\
    h_action e = hardDelete /\ originalId e = fst p /\
    changes e = ∅ /\ snapshot e = Some (with_id p) /\ snapshot e <> Some ∅.
Proof.
  intros Hs.
  unfold findOneAndDelete, findOneAndDelete_op, pre_findOneAndDelete,
    model_findOne, model_find, target, getsM, bindM, retM.
  cbv beta iota.
  destruct (List.filter (fun p => q_filter q (with_id p)) (st_db st)) as [|p0 rest] eqn:F;
    simpl.
  - fold (matches q). intros H.
    assert (Hf : List.filter (matches q) (st_db st) = []) by exact F.
    rewrite Hf in H. simpl in H. discriminate.
  - destruct (createHistoryEntry opt_modelName ctx store_error (hydrate model_db p0)
                hardDelete ∅ (Some (toObject (hydrate model_db p0))) st)
      as [st1 [u|er]] eqn:E; [|discriminate].
    destruct (createHistoryEntry_ok _ _ _ _ _ _ _ _ _ _ E) as (w & e & V & _ & Hl & Hd).
    apply validate_raw_fields in V as (Hi & Hc & Hsn & _ & Ha).
    rewrite Hd. fold (matches q).
    assert (Hf : List.filter (matches q) (st_db st) = p0 :: rest) by exact F.
    rewrite Hf, Hs. simpl. unfold set_db, modifyM. simpl.
    intros H. injection H as <- <-.
    exists w, e. simpl. rewrite Hl, Hd.
    split; [reflexivity|]. split; [reflexivity|].
    split; [exact Ha|]. split; [exact Hi|]. split; [exact Hc|].
    split; [exact Hsn|].
    rewrite Hsn. intros Heq. injection Heq as Heq.
    assert (Hid : toObject (hydrate model_db p0) !! "_id" = Some (VOid (fst p0)))
      by apply lookup_insert_eq.
    rewrite Heq, lookup_empty in Hid. discriminate.
Qed.

(** C10: when the filter of a [findOneAndDelete] or [findOneAndUpdate]
    matches no document, its pre hook writes nothing, changes nothing and
    returns without error (it calls [next()]), so the operation runs as it
    would without the plugin. *)
Theorem query_single_no_match (q : query) (st : St) :
  List.filter (matches q) (st_db st) = [] ->
  pre_findOneAndDelete opt_modelName ctx store_error model_db q st = (st, Ok tt) /\
  pre_findOneAndUpdate opt_modelName ctx store_error model_db q st = (st, Ok tt) /\
  findOneAndDelete opt_modelName ctx store_error model_db q st =
    findOneAndDelete_op q st /\
  findOneAndUpdate opt_modelName ctx store_error apply_update model_db q st =
    findOneAndUpdate_op apply_update q st.
Proof.
  intros Hf.
  assert (Hpd : pre_findOneAndDelete opt_modelName ctx store_error model_db q st = (st, Ok tt)).
  { unfold pre_findOneAndDelete, model_findOne, model_find, getsM, bindM, retM.
    cbv beta iota. fold (matches q). rewrite Hf. reflexivity. }
  assert (Hpu : pre_findOneAndUpdate opt_modelName ctx store_error model_db q st = (st, Ok tt)).
  { unfold pre_findOneAndUpdate, model_findOne, model_find, getsM, bindM, retM.
    cbv beta iota. fold (matches q). rewrite Hf. reflexivity. }
  split; [exact Hpd|]. split; [exact Hpu|]. split.
  - unfold findOneAndDelete. unfold bindM at 1. rewrite Hpd. reflexivity.
  - unfold findOneAndUpdate. unfold bindM at 1. rewrite Hpu. reflexivity.
Qed.

End QuerySingle.

Definition match_none : query := mkQuery (fun _ => false) None ∅ None.

Lemma query_single_no_match_witness :
  List.filter (matches match_none) (st_db two_docs_st) = [] /\
  pre_findOneAndDelete "Widget" [] no_failure 1 match_none two_docs_st = (two_docs_st, Ok tt) /\
  pre_findOneAndUpdate "Widget" [] no_failure 1 match_none two_docs_st = (two_docs_st, Ok tt) /\
  findOneAndDelete "Widget" [] no_failure 1 match_none two_docs_st =
    findOneAndDelete_op match_none two_docs_st /\
  findOneAndUpdate "Widget" [] no_failure (fun u o => u ∪ o) 1 match_none two_docs_st =
    findOneAndUpdate_op (fun u o => u ∪ o) match_none two_docs_st.
Proof.
  split; [reflexivity|].
  apply (query_single_no_match "Widget" [] no_failure (fun u o => u ∪ o) 1
           match_none two_docs_st).
  reflexivity.
Defined.

(** ** Soft delete and restore *)

Section Tombstone.
Variables (opt_modelName : string) (ctx : list (string * value))
  (store_error : list (writer * entry) -> writer * entry -> option nat) (now : Z).

Lemma tombstone_get (d : doc) (v : value) :
  doc_get (saved_doc (doc_set d "deletedAt" v)) "deletedAt" = v.
Proof.
  unfold doc_get. replace (split_dot "deletedAt") with ["deletedAt"] by reflexivity.
  unfold toObject, saved_doc, doc_set. cbn [d_id d_fields d_isNew].
  destruct (d_isNew d); simplify_map_eq; reflexivity.
Qed.




End Tombstone.

Definition widget_saved : doc := mkDoc widget_id {[ "name" := VStr "a" ]} false [] 1.



(** ** The update-by-query pathways *)

(** An [update] entry for the document [id] whose changes are the patch [u]
    as given and whose snapshot is [{...cur, ...u}]: a key of the patch
    takes the patch's value, any other key the current document's. *)
Definition patch_entry (u cur : obj) (id : string) (e : entry) : Prop :=
  h_action e = update /\ originalId e = id /\ changes e = u /\
  exists s, snapshot e = Some s /\
    forall k, s !! k = match u !! k with Some v => Some v | None => cur !! k end.

Lemma union_lookup_patch (u cur : obj) (k : string) :
  (u ∪ cur) !! k = match u !! k with Some v => Some v | None => cur !! k end.
Proof. rewrite lookup_union. destruct (u !! k), (cur !! k); reflexivity. Qed.

Lemma patch_entry_of_raw (opt_modelName : string) (ctx : list (string * value))
    (u : obj) (d : doc) (e : entry) :
  validate_raw (raw_of opt_modelName ctx d update u (Some (u ∪ toObject d))) = inl e ->
  patch_entry u (toObject d) (d_id d) e.
Proof.
  intros V. apply validate_raw_fields in V as (Hi & Hc & Hs & _ & Ha).
  simpl in *. split; [exact Ha|]. split; [exact Hi|]. split; [exact Hc|].
  exists (u ∪ toObject d). split; [exact Hs|]. apply union_lookup_patch.
Qed.

Section UpdateClaims.
Variables (opt_modelName : string) (ctx : list (string * value))
  (store_error : list (writer * entry) -> writer * entry -> option nat)
  (apply_update : obj -> obj -> obj) (model_db : nat).

Lemma findOneAndUpdate_op_log (q : query) (st st' : St) (r : res (option (string * obj))) :
  findOneAndUpdate_op apply_update q st = (st', r) -> st_log st' = st_log st.
Proof.
  unfold findOneAndUpdate_op, target, getsM, bindM, set_db, modifyM, retM.
  destruct (pick _ _); [|destruct (q_upsert q) as [[? ?]|]];
    intros H; injection H as <- _; reflexivity.
Qed.

Lemma pre_findOneAndUpdate_ok (q : query) (st st1 : St) (p : string * obj) :
  head (List.filter (matches q) (st_db st)) = Some p ->
  pre_findOneAndUpdate opt_modelName ctx store_error model_db q st = (st1, Ok tt) ->
  exists w e, st_log st1 = st_log st ++ [(w, e)] /\
    validate_raw (raw_of opt_modelName ctx (hydrate model_db p) update (q_update q)
                    (Some (q_update q ∪ toObject (hydrate model_db p)))) = inl e.
Proof.
  intros Hh.
  unfold pre_findOneAndUpdate, model_findOne, model_find, getsM, bindM, retM.
  cbv beta iota. fold (matches q).
  destruct (List.filter (matches q) (st_db st)) as [|p0 rest];
    simpl in Hh; [discriminate|]. injection Hh as ->. simpl. intros E.
  destruct (createHistoryEntry_ok _ _ _ _ _ _ _ _ _ _ E) as (w & e & V & _ & Hl & _).
  eauto.
Qed.

(** The [update] entries of [findOneAndUpdate] (for the document its hook
    fetches, the first match in natural order) and of [updateMany] (one per
    matched document written) record the caller's patch [getUpdate()]
    itself as changes, whatever it holds (operators included), and as
    snapshot the fetched document's state with the patch's keys overwriting
    it. *)
Lemma query_update_entries_of_fetched (q : query) (st st' : St) :
  (forall (p : string * obj) (r : option (string * obj)),
     head (List.filter (matches q) (st_db st)) = Some p ->
     findOneAndUpdate opt_modelName ctx store_error apply_update model_db q st = (st', Ok r) ->
     exists w e, st_log st' = st_log st ++ [(w, e)] /\
       patch_entry (q_update q) (with_id p) (fst p) e) /\
  (forall r : res unit,
     updateMany opt_modelName ctx store_error apply_update model_db q st = (st', r) ->
     exists L, st_log st' = st_log st ++ L /\
       Forall2 (fun d we => patch_entry (q_update q) (toObject d) (d_id d) (snd we))
               (firstn (length L) (matched model_db q st)) L).
Proof.
  split.
  - intros p r Hh H. unfold findOneAndUpdate, bindM at 1 in H.
    destruct (pre_findOneAndUpdate opt_modelName ctx store_error model_db q st)
      as [st1 [[]|er]] eqn:E; [|discriminate].
    destruct (pre_findOneAndUpdate_ok q st st1 p Hh E) as (w & e & Hl & V).
    apply findOneAndUpdate_op_log in H.
    exists w, e. rewrite H, Hl. split; [reflexivity|].
    apply (patch_entry_of_raw opt_modelName ctx) in V. exact V.
  - intros r H.
    pose proof (updateMany_outcome opt_modelName ctx store_error apply_update model_db q st)
      as Ho.
    rewrite H in Ho. destruct Ho as (L & Hl & HF & _).
    exists L. split; [exact Hl|].
    eapply Forall2_impl; [exact HF|].
    intros d we V. apply (patch_entry_of_raw opt_modelName ctx). exact V.
Qed.

End UpdateClaims.

(** [Model.findOneAndUpdate({}, { $set: { name: 'b' } })] *)
Definition set_name_b : query :=
  mkQuery (fun _ => true) None {[ "$set" := VObj [("name", VStr "b")] ]} None.

(** A stand-in for the store's update engine in the concrete runs. *)
Definition keep_doc (u o : obj) : obj := o.

(** The store's [$set] on top-level fields, for the concrete runs. *)
Definition set_engine (u o : obj) : obj :=
  match u !! "$set" with
  | Some (VObj l) => fold_left (fun acc kv => <[fst kv := snd kv]> acc) l o
  | _ => o
  end.

(** [Model.findOneAndUpdate({}, { $set: { name: 'b' } }, { sort: { n: 1 } })] *)
Definition update_least_n : query :=
  mkQuery (fun _ => true) (Some "n") {[ "$set" := VObj [("name", VStr "b")] ]} None.

(** C7 (failing input): with a [sort] option the hook of [findOneAndUpdate]
    fetches the first match in natural order ([getQuery()] drops the sort),
    while the operation updates the first match in sort order: the one
    [update] entry written is for [doc_a], with [doc_a]'s state merged with
    the patch as snapshot, while the document updated is [doc_b]. *)
Theorem findOneAndUpdate_sort_logs_other_document :
  let r := findOneAndUpdate "Widget" [] no_failure set_engine 1 update_least_n two_docs_st in
  snd r = Ok (Some doc_b) /\
  st_db (fst r) = [doc_a; (fst doc_b, <["name" := VStr "b"]> (snd doc_b))] /\
  map originalId (entries_of (fst r)) = [fst doc_a] /\
  map h_action (entries_of (fst r)) = [update] /\
  map snapshot (entries_of (fst r)) = [Some (q_update update_least_n ∪ with_id doc_a)].
Proof. vm_compute. repeat split; reflexivity. Qed.

(** ** Failures of the audit write *)

(** The audit write [hook_write] of a pathway [op] is fail-closed: when it
    fails, [op] fails with the same error, nothing is persisted and the
    entity collection is unchanged. *)
Definition fails_closed {A} (op : M A) (hook_write : M unit) (st : St) : Prop :=
  forall st1 er, hook_write st = (st1, Err er) ->
    op st = (st1, Err er) /\ st_db st1 = st_db st /\ st_log st1 = st_log st.

Section Failures.
Variables (opt_modelName : string) (ctx : list (string * value))
  (store_error : list (writer * entry) -> writer * entry -> option nat)
  (now : Z) (apply_update : obj -> obj -> obj) (model_db : nat).

Lemma hook_write_err {A} (d : doc) (a : action) (chg : obj) (snap : option obj)
    (k : M A) (st st1 : St) (er : err) :
  createHistoryEntry opt_modelName ctx store_error d a chg snap st = (st1, Err er) ->
  (createHistoryEntry opt_modelName ctx store_error d a chg snap ;; k) st = (st1, Err er) /\
  st_db st1 = st_db st /\ st_log st1 = st_log st.
Proof.
  intros E. destruct (createHistoryEntry_err _ _ _ _ _ _ _ _ _ _ E) as (Hl & Hd & _).
  unfold bindM. rewrite E. auto.
Qed.

Lemma save_fails_closed (d : doc) (st : St) :
  fails_closed (save opt_modelName ctx store_error d)
    (createHistoryEntry opt_modelName ctx store_error d
       (if d_isNew d then create else update)
       (if d_isNew d then toObject d else modified_changes d) (Some (toObject d))) st.
Proof. intros st1 er E. unfold save, pre_save. exact (hook_write_err _ _ _ _ _ _ _ _ E). Qed.





End Failures.

Lemma value_eqb_VNull (x : value) : value_eqb x VNull = true -> x = VNull.
Proof. destruct x; simpl; congruence. Qed.

Lemma value_eqb_VDate (x : value) (n : Z) : value_eqb x (VDate n) = true -> x = VDate n.
Proof. destruct x; simpl; try discriminate. intros H. apply Z.eqb_eq in H. congruence. Qed.

(** ** What a successful save of the tombstone persists *)









Lemma doc_get_set_deletedAt (d : doc) (v : value) :
  doc_get (doc_set d "deletedAt" v) "deletedAt" = v.
Proof.
  unfold doc_get. replace (split_dot "deletedAt") with ["deletedAt"] by reflexivity.
  unfold toObject, doc_set. cbn [d_id d_fields]. simplify_map_eq. reflexivity.
Qed.


Section TombstoneFailures.
Variables (opt_modelName : string) (ctx : list (string * value))
  (store_error : list (writer * entry) -> writer * entry -> option nat).




End TombstoneFailures.

Section FailureClaim.
Variables (opt_modelName : string) (ctx : list (string * value))
  (store_error : list (writer * entry) -> writer * entry -> option nat)
  (now : Z) (apply_update : obj -> obj -> obj) (model_db : nat).


End FailureClaim.




(** ** The acting user *)

Definition stored_actor (v' : value) : option value :=
  match v' with VUndef => None | _ => Some v' end.

Lemma validate_raw_actor_ok (r : raw_entry) (e : entry) :
  validate_raw r = inl e ->
  (r_modifiedBy r = None -> modifiedBy e = None) /\
  (forall v, r_modifiedBy r = Some v ->
     exists v', cast_objectid v = Some v' /\ modifiedBy e = stored_actor v').
Proof.
  unfold validate_raw. destruct (String.eqb (r_modelName r) ""); [discriminate|].
  destruct (r_modifiedBy r) as [v|].
  - destruct (cast_objectid v) as [v'|] eqn:C; [|discriminate].
    intros H. split; [discriminate|]. intros v0 Hv. injection Hv as <-.
    exists v'. split; [exact C|].
    destruct v'; injection H as <-; reflexivity.
  - intros H. injection H as <-. split; [reflexivity|discriminate].
Qed.

Lemma validate_raw_actor_err (r : raw_entry) (er : err) :
  validate_raw r = inr er ->
  er = ERequired "modelName" \/
  (er = ECast "modifiedBy" /\ exists v, r_modifiedBy r = Some v /\ cast_objectid v = None).
Proof.
  unfold validate_raw. destruct (String.eqb (r_modelName r) "").
  - intros H. injection H as <-. left. reflexivity.
  - destruct (r_modifiedBy r) as [v|].
    + destruct (cast_objectid v) as [v'|] eqn:C.
      * destruct v'; discriminate.
      * intros H. injection H as <-. right. eauto.
    + discriminate.
Qed.

Section Actor.
Variables (opt_modelName : string) (ctx : list (string * value))
  (store_error : list (writer * entry) -> writer * entry -> option nat).

(** C9 (amended): every entry goes through [createHistoryEntry].  With no
    actor bound, a written entry has no [modifiedBy], and a failing write
    never fails because of the actor.  With the actor bound to [U], a
    written entry's [modifiedBy] is [U] cast to an ObjectId ([U] itself when
    it is an ObjectId, the ObjectId a 24-hex-digit string spells, the [_id]
    of an object carrying one); when [U] cannot be cast the write fails and
    no entry is written; with [modelName] set, the failure is the cast error
    of [modifiedBy]. *)
Theorem actor_recorded_as_objectid (d : doc) (a : action) (chg : obj) (snap : option obj)
    (st st1 : St) (r : res unit) :
  createHistoryEntry opt_modelName ctx store_error d a chg snap st = (st1, r) ->
  (storage_get ctx "currentUserId" = None ->
     (r = Ok tt -> exists w e, st_log st1 = st_log st ++ [(w, e)] /\ modifiedBy e = None) /\
     (forall er, r = Err er -> er <> ECast "modifiedBy")) /\
  (forall U, storage_get ctx "currentUserId" = Some U ->
     (r = Ok tt -> exists w e U', st_log st1 = st_log st ++ [(w, e)] /\
        cast_objectid U = Some U' /\ modifiedBy e = stored_actor U' /\
        (forall h, U = VOid h -> modifiedBy e = Some U)) /\
     (cast_objectid U = None ->
        st_log st1 = st_log st /\ (exists er, r = Err er) /\
        (opt_modelName <> "" -> r = Err (ECast "modifiedBy")))).
Proof.
  intros E.
  assert (Hok : r = Ok tt -> exists w e,
             validate_raw (raw_of opt_modelName ctx d a chg snap) = inl e /\
             st_log st1 = st_log st ++ [(w, e)]).
  { intros ->. destruct (createHistoryEntry_ok _ _ _ _ _ _ _ _ _ _ E)
      as (w & e & V & _ & Hl & _). eauto. }
  split.
  - intros Hnone. split.
    + intros Hr. destruct (Hok Hr) as (w & e & V & Hl).
      exists w, e. split; [exact Hl|].
      apply validate_raw_actor_ok in V as [V _]. apply V. exact Hnone.
    + intros er -> Hc. subst er.
      destruct (createHistoryEntry_err _ _ _ _ _ _ _ _ _ _ E) as (_ & _ & [V|V]).
      * apply validate_raw_actor_err in V as [V|(_ & v & Hv & _)];
          [discriminate|]. simpl in Hv. congruence.
      * destruct V as (w & e & c & _ & _ & V). discriminate.
  - intros U HU. split.
    + intros Hr. destruct (Hok Hr) as (w & e & V & Hl).
      apply validate_raw_actor_ok in V as [_ V].
      destruct (V U HU) as (U' & HC & Hm).
      exists w, e, U'. split; [exact Hl|]. split; [exact HC|]. split; [exact Hm|].
      intros h ->. simpl in HC. injection HC as <-. exact Hm.
    + intros HC.
      unfold createHistoryEntry, bindM in E.
      destruct (getModel_ok st (d_db d)) as (w & st' & Eg & Hl & _).
      rewrite Eg in E. unfold history_save in E.
      unfold validate_raw in E. cbn [r_modelName r_modifiedBy] in E.
      rewrite HU, HC in E.
      destruct (String.eqb opt_modelName "") eqn:Em; injection E as <- <-.
      * split; [exact Hl|]. split; [eauto|].
        intros Hne. apply String.eqb_eq in Em. contradiction.
      * split; [exact Hl|]. split; eauto.
Qed.

End Actor.

Definition hex_user : string := "507f1f77bcf86cd799439011".

(** C9 (counterexample): bound to the string [hex_user], the actor is
    stored as the ObjectId it spells, not as the string; bound to the
    string ["alice"], the creation fails with a cast error and no entry is
    written. *)
Lemma actor_string_not_stored_as_given :
  let r1 := save "Widget" [("currentUserId", VStr hex_user)] no_failure widget_new empty_st in
  let r2 := save "Widget" [("currentUserId", VStr "alice")] no_failure widget_new empty_st in
  map modifiedBy (entries_of (fst r1)) = [Some (VOid hex_user)] /\
  Some (VOid hex_user) <> Some (VStr hex_user) /\
  snd r2 = Err (ECast "modifiedBy") /\ entries_of (fst r2) = [].
Proof.
  intros r1 r2. split; [reflexivity|]. split; [discriminate|].
  split; reflexivity.
Qed.

Lemma actor_recorded_as_objectid_witness :
  let R := createHistoryEntry "Widget" [("currentUserId", VOid hex_user)] no_failure
             widget_new create ∅ None empty_st in
  exists w e U', st_log (fst R) = st_log empty_st ++ [(w, e)] /\
    cast_objectid (VOid hex_user) = Some U' /\ modifiedBy e = stored_actor U' /\
    (forall h, VOid hex_user = VOid h -> modifiedBy e = Some (VOid hex_user)).
Proof.
  intros R.
  destruct (actor_recorded_as_objectid "Widget" [("currentUserId", VOid hex_user)] no_failure
              widget_new create ∅ None empty_st (fst R) (snd R) eq_refl) as [_ H].
  apply (proj1 (H (VOid hex_user) eq_refl)). reflexivity.
Defined.

(** * Further properties of the plugin *)

(** ** Properties kept by every pathway *)

(** A relation [R] between a state and a later one that every primitive
    step of the plugin respects is respected by every hook and method. *)
Section Steps.
Variable R : St -> St -> Prop.
Hypothesis R_refl : forall st, R st st.
Hypothesis R_trans : forall a b c, R a b -> R b c -> R a c.
Hypothesis R_set_db : forall st f,
  R st (mkSt (st_models st) (st_built st) (st_log st) (f (st_db st))).
Hypothesis R_append : forall st L,
  R st (mkSt (st_models st) (st_built st) (st_log st ++ L) (st_db st)).
Hypothesis R_getModel : forall st c, R st (fst (getModel c st)).

Definition steps {A} (m : M A) : Prop := forall st, R st (fst (m st)).

Lemma steps_bind {A B} (m : M A) (k : A -> M B) :
  steps m -> (forall a, steps (k a)) -> steps (bindM m k).
Proof.
  intros Hm Hk st. unfold bindM. specialize (Hm st).
  destruct (m st) as [st1 [a|e]]; simpl in *; [|exact Hm].
  exact (R_trans _ _ _ Hm (Hk a st1)).
Qed.

Lemma steps_ret {A} (a : A) : steps (retM a).
Proof. intros st. apply R_refl. Qed.

Lemma steps_throw {A} (e : err) : steps (@throwM A e).
Proof. intros st. apply R_refl. Qed.

Lemma steps_gets {A} (f : St -> A) : steps (getsM f).
Proof. intros st. apply R_refl. Qed.

Lemma steps_set_db f : steps (set_db f).
Proof. intros st. apply R_set_db. Qed.

Lemma steps_getModel c : steps (getModel c).
Proof. intros st. apply R_getModel. Qed.

Lemma steps_history_save se w r : steps (history_save se w r).
Proof.
  intros st. unfold history_save.
  destruct (validate_raw r) as [e|er]; [|apply R_refl].
  destruct (se (st_log st) (w, e)); [apply R_refl|apply R_append].
Qed.

Lemma steps_for_each (docs : list doc) (body : doc -> M unit) :
  (forall d, steps (body d)) -> steps (for_each docs body).
Proof.
  intros Hb. induction docs as [|d docs IH]; simpl.
  - apply steps_ret.
  - apply steps_bind; [apply Hb|intros _; exact IH].
Qed.

Ltac steps_auto :=
  repeat match goal with
  | |- steps (bindM _ _) => apply steps_bind; [|intros ?]
  | |- steps (retM _) => apply steps_ret
  | |- steps (throwM _) => apply steps_throw
  | |- steps (getsM _) => apply steps_gets
  | |- steps (set_db _) => apply steps_set_db
  | |- steps (getModel _) => apply steps_getModel
  | |- steps (history_save _ _ _) => apply steps_history_save
  | |- steps (for_each _ _) => apply steps_for_each; intros ?
  | |- steps (match ?x with _ => _ end) => destruct x
  | |- steps (createHistoryEntry _ _ _ _ _ _ _) => unfold createHistoryEntry
  | |- steps (pre_save _ _ _ _) => unfold pre_save
  | |- steps (save _ _ _ _) => unfold save
  | |- steps (model_findOne _ _) => unfold model_findOne
  | |- steps (model_find _ _) => unfold model_find
  | |- steps (target _) => unfold target
  | |- _ => progress cbv zeta
  end.

Section Pathways.
Variables (opt_modelName : string) (ctx : list (string * value))
  (store_error : list (writer * entry) -> writer * entry -> option nat)
  (now : Z) (apply_update : obj -> obj -> obj) (model_db : nat).

Lemma pathways_steps :
  (forall d, steps (save opt_modelName ctx store_error d)) /\
  (forall d, steps (softDelete_m opt_modelName ctx store_error now d)) /\
  (forall d, steps (restore_m opt_modelName ctx store_error d)) /\
  (forall d, steps (deleteOne opt_modelName ctx store_error d)) /\
  (forall q, steps (findOneAndDelete opt_modelName ctx store_error model_db q)) /\
  (forall q, steps (findOneAndUpdate opt_modelName ctx store_error apply_update model_db q)) /\
  (forall q, steps (deleteMany opt_modelName ctx store_error model_db q)) /\
  (forall q, steps (updateMany opt_modelName ctx store_error apply_update model_db q)).
Proof.
  split; [intros d; steps_auto|].
  split; [intros d; unfold softDelete_m; steps_auto|].
  split; [intros d; unfold restore_m; steps_auto|].
  split; [intros d; unfold deleteOne, pre_deleteOne; steps_auto|].
  split; [intros q; unfold findOneAndDelete, pre_findOneAndDelete,
                       findOneAndDelete_op; steps_auto|].
  split; [intros q; unfold findOneAndUpdate, pre_findOneAndUpdate,
                       findOneAndUpdate_op; steps_auto|].
  split; [intros q; unfold deleteMany, pre_deleteMany; steps_auto|].
  intros q; unfold updateMany, pre_updateMany; steps_auto.
Qed.

End Pathways.
End Steps.

Definition log_extends (st st' : St) : Prop := exists L, st_log st' = st_log st ++ L.

Definition registry_kept (st st' : St) : Prop := reg_inv st -> reg_inv st'.

Lemma reg_inv_ext (st st' : St) :
  st_models st' = st_models st -> st_built st' = st_built st -> reg_inv st -> reg_inv st'.
Proof. intros Hm Hb. unfold reg_inv. rewrite Hm, Hb. exact id. Qed.

Lemma log_extends_refl st : log_extends st st.
Proof. exists []. rewrite app_nil_r. reflexivity. Qed.

Lemma log_extends_trans a b c : log_extends a b -> log_extends b c -> log_extends a c.
Proof.
  intros [L1 H1] [L2 H2]. exists (L1 ++ L2). rewrite H2, H1, app_assoc. reflexivity.
Qed.

Lemma log_extends_getModel st c : log_extends st (fst (getModel c st)).
Proof.
  destruct (getModel_ok st c) as (w & st' & E & Hl & _). rewrite E. simpl.
  exists []. rewrite Hl, app_nil_r. reflexivity.
Qed.

Lemma registry_kept_getModel st c : registry_kept st (fst (getModel c st)).
Proof.
  intros Hinv. destruct (getModel_spec st c Hinv) as (w & st' & E & Hinv' & _).
  rewrite E. exact Hinv'.
Qed.

Section Invariants.
Variables (opt_modelName : string) (ctx : list (string * value))
  (store_error : list (writer * entry) -> writer * entry -> option nat)
  (now : Z) (apply_update : obj -> obj -> obj) (model_db : nat).

(** Every pathway of the plugin, whether it succeeds or fails, only ever
    appends to the audit log: the entries present before are still there,
    unchanged and in the same order (the plugin has no update or delete of
    a history document). *)
Theorem pathways_append_only (st : St) :
  (forall d, log_extends st (fst (save opt_modelName ctx store_error d st))) /\
  (forall d, log_extends st (fst (softDelete_m opt_modelName ctx store_error now d st))) /\
  (forall d, log_extends st (fst (restore_m opt_modelName ctx store_error d st))) /\
  (forall d, log_extends st (fst (deleteOne opt_modelName ctx store_error d st))) /\
  (forall q, log_extends st
     (fst (findOneAndDelete opt_modelName ctx store_error model_db q st))) /\
  (forall q, log_extends st
     (fst (findOneAndUpdate opt_modelName ctx store_error apply_update model_db q st))) /\
  (forall q, log_extends st (fst (deleteMany opt_modelName ctx store_error model_db q st))) /\
  (forall q, log_extends st
     (fst (updateMany opt_modelName ctx store_error apply_update model_db q st))).
Proof.
  destruct (pathways_steps log_extends log_extends_refl log_extends_trans
              (fun st f => log_extends_refl st)
              (fun st L => ex_intro _ L eq_refl)
              log_extends_getModel
              opt_modelName ctx store_error now apply_update model_db)
    as (H1 & H2 & H3 & H4 & H5 & H6 & H7 & H8).
  repeat split; intros; [apply H1|apply H2|apply H3|apply H4|apply H5|apply H6
                         |apply H7|apply H8].
Qed.

(** Every pathway keeps the registry invariant: each cached writer is the
    one built for its connection, and no connection ever gets a second
    writer, whatever the pathway does or however it fails. *)
Theorem pathways_keep_registry (st : St) :
  reg_inv st ->
  (forall d, reg_inv (fst (save opt_modelName ctx store_error d st))) /\
  (forall d, reg_inv (fst (softDelete_m opt_modelName ctx store_error now d st))) /\
  (forall d, reg_inv (fst (restore_m opt_modelName ctx store_error d st))) /\
  (forall d, reg_inv (fst (deleteOne opt_modelName ctx store_error d st))) /\
  (forall q, reg_inv (fst (findOneAndDelete opt_modelName ctx store_error model_db q st))) /\
  (forall q, reg_inv
     (fst (findOneAndUpdate opt_modelName ctx store_error apply_update model_db q st))) /\
  (forall q, reg_inv (fst (deleteMany opt_modelName ctx store_error model_db q st))) /\
  (forall q, reg_inv
     (fst (updateMany opt_modelName ctx store_error apply_update model_db q st))).
Proof.
  intros Hinv.
  destruct (pathways_steps registry_kept (fun st H => H)
              (fun a b c Hab Hbc H => Hbc (Hab H))
              (fun st f => reg_inv_ext _ _ eq_refl eq_refl)
              (fun st L => reg_inv_ext _ _ eq_refl eq_refl)
              registry_kept_getModel
              opt_modelName ctx store_error now apply_update model_db)
    as (H1 & H2 & H3 & H4 & H5 & H6 & H7 & H8).
  split; [intros d; exact (H1 d st Hinv)|]. split; [intros d; exact (H2 d st Hinv)|].
  split; [intros d; exact (H3 d st Hinv)|]. split; [intros d; exact (H4 d st Hinv)|].
  split; [intros q; exact (H5 q st Hinv)|]. split; [intros q; exact (H6 q st Hinv)|].
  split; [intros q; exact (H7 q st Hinv)|]. intros q; exact (H8 q st Hinv).
Qed.

End Invariants.

Lemma pathways_keep_registry_witness :
  reg_inv empty_st /\
  reg_inv (fst (save "Widget" [] no_failure widget_new empty_st)).
Proof.
  split; [exact reg_inv_empty|].
  apply (pathways_keep_registry "Widget" [] no_failure 5 keep_doc 1 empty_st
           reg_inv_empty).
Defined.

Section EntryWriter.
Variables (opt_modelName : string) (ctx : list (string * value))
  (store_error : list (writer * entry) -> writer * entry -> option nat).

(** Under the registry invariant, the entry [createHistoryEntry] writes
    goes through the writer compiled on the document's own connection
    ([doc.constructor.db]), which stays cached for that connection. *)
Theorem entry_written_through_connection_writer (d : doc) (a : action) (chg : obj)
    (snap : option obj) (st st' : St) (u : unit) :
  reg_inv st ->
  createHistoryEntry opt_modelName ctx store_error d a chg snap st = (st', Ok u) ->
  exists w e, st_log st' = st_log st ++ [(w, e)] /\
    w_conn w = d_db d /\ st_models st' !! d_db d = Some w.
Proof.
  intros Hinv.
  destruct (getModel_spec st (d_db d) Hinv)
    as (w & st1 & E & _ & Hm & Hc & _ & Hl & _ & _).
  unfold createHistoryEntry, bindM. rewrite E. unfold history_save.
  destruct (validate_raw _) as [e|er]; [|discriminate].
  destruct (store_error (st_log st1) (w, e)); [discriminate|].
  intros H. injection H as <- _. exists w, e. simpl.
  rewrite Hl. auto.
Qed.

(** With [options.modelName] empty, the required validator of
    [historySchema] rejects every history document: every audit write fails
    with that error and writes nothing, so every [save()] of the entity
    fails too, leaving the collection unchanged. *)
Theorem empty_modelName_blocks_writes (d : doc) (a : action) (chg : obj)
    (snap : option obj) (st : St) :
  (exists st1, createHistoryEntry "" ctx store_error d a chg snap st =
                 (st1, Err (ERequired "modelName")) /\ st_log st1 = st_log st) /\
  (exists st', save "" ctx store_error d st = (st', Err (ERequired "modelName")) /\
     st_log st' = st_log st /\ st_db st' = st_db st).
Proof.
  assert (Hw : forall d a chg snap,
    exists st1, createHistoryEntry "" ctx store_error d a chg snap st =
                  (st1, Err (ERequired "modelName")) /\ st_log st1 = st_log st).
  { intros d0 a0 chg0 snap0.
    destruct (getModel_ok st (d_db d0)) as (w & st1 & E & Hl & _).
    exists st1. unfold createHistoryEntry, bindM. rewrite E. split; [reflexivity|exact Hl]. }
  split; [apply Hw|].
  destruct (Hw d (if d_isNew d then create else update)
              (if d_isNew d then toObject d else modified_changes d) (Some (toObject d)))
    as (st1 & E & _).
  destruct (save_fails_closed "" ctx store_error d st st1 _ E) as (Hs & Hd & Hl).
  exists st1. auto.
Qed.

End EntryWriter.

Lemma entry_written_through_connection_writer_witness :
  reg_inv empty_st /\
  let R := createHistoryEntry "Widget" [] no_failure widget_new create ∅ None empty_st in
  exists w e, st_log (fst R) = st_log empty_st ++ [(w, e)] /\
    w_conn w = d_db widget_new /\ st_models (fst R) !! d_db widget_new = Some w.
Proof.
  split; [exact reg_inv_empty|]. intros R.
  apply (entry_written_through_connection_writer "Widget" [] no_failure widget_new create
           ∅ None empty_st (fst R) tt reg_inv_empty).
  reflexivity.
Defined.

(** ** Bulk pathways over no document *)



Section BulkEmpty.
Variables (opt_modelName : string) (ctx : list (string * value))
  (store_error : list (writer * entry) -> writer * entry -> option nat)
  (apply_update : obj -> obj -> obj) (model_db : nat).



End BulkEmpty.



(** ** Saving, soft-deleting and restoring a clean document *)

Lemma modifiedPaths_nil (d : doc) : d_modified d = [] -> modifiedPaths d = [].
Proof. intros H. unfold modifiedPaths. rewrite H. reflexivity. Qed.

Lemma modifiedPaths_deletedAt (d : doc) :
  d_modified d = ["deletedAt"] -> modifiedPaths d = ["deletedAt"].
Proof. intros H. unfold modifiedPaths. rewrite H. reflexivity. Qed.

Section Clean.
Variables (opt_modelName : string) (ctx : list (string * value))
  (store_error : list (writer * entry) -> writer * entry -> option nat) (now : Z).


Lemma tombstone_clean_changes (v : value) (a : action) (chg : doc -> obj) (d d' : doc)
    (st st' : St) :
  d_isNew d = false -> d_modified d = [] ->
  (forall x, value_eqb x v = true -> x = v) -> value_eqb v v = true ->
  (do! d2 <- save opt_modelName ctx store_error (doc_set d "deletedAt" v);
   let snap := toObject d2 in
   createHistoryEntry opt_modelName ctx store_error d2 a (chg d2) (Some snap) ;;
   retM d2) st = (st', Ok d') ->
  exists w1 e1 w2 e2,
    st_log st' = st_log st ++ [(w1, e1); (w2, e2)] /\
    d' = saved_doc (doc_set d "deletedAt" v) /\
    h_action e1 = update /\ h_action e2 = a /\ changes e2 = chg d' /\
    (doc_get d "deletedAt" = v -> changes e1 = ∅) /\
    (doc_get d "deletedAt" <> v -> changes e1 = {[ "deletedAt" := v ]}).
Proof.
  intros Hn Hm Hv Hr.
  unfold bindM at 1.
  destruct (save opt_modelName ctx store_error (doc_set d "deletedAt" v) st)
    as [st1 [d2|er]] eqn:E1; [|discriminate].
  destruct (save_ok _ _ _ _ _ _ _ E1) as (w1 & e1 & V1 & Hl1 & _ & Hd2).
  unfold bindM.
  destruct (createHistoryEntry opt_modelName ctx store_error d2 a (chg d2)
              (Some (toObject d2)) st1) as [st2 [u|er]] eqn:E2; [|discriminate].
  destruct (createHistoryEntry_ok _ _ _ _ _ _ _ _ _ _ E2) as (w2 & e2 & V2 & _ & Hl2 & _).
  unfold retM. intros H. injection H as <- <-.
  apply validate_raw_fields in V1 as (_ & Hc1 & _ & _ & Ha1).
  apply validate_raw_fields in V2 as (_ & Hc2 & _ & _ & Ha2).
  cbn [raw_of r_action r_changes d_isNew doc_set] in Ha1, Hc1, Hc2, Ha2.
  rewrite Hn in Ha1, Hc1.
  exists w1, e1, w2, e2. rewrite Hl2, Hl1, <- app_assoc.
  split; [reflexivity|]. split; [exact Hd2|]. split; [exact Ha1|].
  split; [exact Ha2|]. split; [exact Hc2|].
  rewrite Hc1. unfold modified_changes.
  assert (Hm1 : d_modified (doc_set d "deletedAt" v) =
                if value_eqb (doc_get d "deletedAt") v then [] else ["deletedAt"]).
  { unfold doc_set. cbn [d_modified]. rewrite Hm.
    destruct (value_eqb (doc_get d "deletedAt") v); reflexivity. }
  split.
  - intros Heq. rewrite Heq, Hr in Hm1. rewrite (modifiedPaths_nil _ Hm1). reflexivity.
  - intros Hne. destruct (value_eqb (doc_get d "deletedAt") v) eqn:B.
    + apply Hv in B. contradiction.
    + rewrite (modifiedPaths_deletedAt _ Hm1). cbn [fold_left].
      rewrite doc_get_set_deletedAt. reflexivity.
Qed.

(** [softDelete()] on a saved document with no pending modification: the
    entry of its [save()] is an [update] recording [{deletedAt: <the new
    Date>}], the same change the [softDelete] entry then records again; if
    the document already carried that very date, the [update] entry is
    empty. *)
Theorem softDelete_clean_doc_save_changes (d d' : doc) (st st' : St) :
  d_isNew d = false -> d_modified d = [] ->
  softDelete_m opt_modelName ctx store_error now d st = (st', Ok d') ->
  exists w1 e1 w2 e2,
    st_log st' = st_log st ++ [(w1, e1); (w2, e2)] /\
    h_action e1 = update /\ h_action e2 = softDelete /\
    changes e2 = {[ "deletedAt" := VDate now ]} /\
    (doc_get d "deletedAt" <> VDate now -> changes e1 = changes e2) /\
    (doc_get d "deletedAt" = VDate now -> changes e1 = ∅).
Proof.
  intros Hn Hm H. unfold softDelete_m in H.
  destruct (tombstone_clean_changes (VDate now) softDelete
              (fun d2 => {[ "deletedAt" := doc_get d2 "deletedAt" ]}) d d' st st'
              Hn Hm (fun x => value_eqb_VDate x now) (Z.eqb_refl now) H)
    as (w1 & e1 & w2 & e2 & Hl & Hd & Ha1 & Ha2 & Hc2 & H1 & H2).
  assert (Hc2' : changes e2 = {[ "deletedAt" := VDate now ]}).
  { rewrite Hc2, Hd, tombstone_get. reflexivity. }
  exists w1, e1, w2, e2.
  split; [exact Hl|]. split; [exact Ha1|]. split; [exact Ha2|]. split; [exact Hc2'|].
  split; [intros Hne; rewrite Hc2'; exact (H2 Hne)|exact H1].
Qed.

(** [restore()] on a saved document with no pending modification: if it
    is not soft-deleted ([deletedAt] already [null]) its [save()] still
    writes an empty [update] entry before the [restore] entry; otherwise
    the [update] entry records [{deletedAt: null}], as the [restore] entry
    does. *)
Theorem restore_clean_doc_save_changes (d d' : doc) (st st' : St) :
  d_isNew d = false -> d_modified d = [] ->
  restore_m opt_modelName ctx store_error d st = (st', Ok d') ->
  exists w1 e1 w2 e2,
    st_log st' = st_log st ++ [(w1, e1); (w2, e2)] /\
    h_action e1 = update /\ h_action e2 = restore /\
    changes e2 = {[ "deletedAt" := VNull ]} /\
    (doc_get d "deletedAt" = VNull -> changes e1 = ∅) /\
    (doc_get d "deletedAt" <> VNull -> changes e1 = changes e2).
Proof.
  intros Hn Hm H. unfold restore_m in H.
  destruct (tombstone_clean_changes VNull restore
              (fun _ => {[ "deletedAt" := VNull ]}) d d' st st'
              Hn Hm value_eqb_VNull eq_refl H)
    as (w1 & e1 & w2 & e2 & Hl & Hd & Ha1 & Ha2 & Hc2 & H1 & H2).
  exists w1, e1, w2, e2.
  split; [exact Hl|]. split; [exact Ha1|]. split; [exact Ha2|]. split; [exact Hc2|].
  split; [exact H1|]. intros Hne. rewrite Hc2. exact (H2 Hne).
Qed.

End Clean.


Lemma softDelete_clean_doc_save_changes_witness :
  let r := softDelete_m "Widget" [] no_failure 5 widget_saved saved_st in
  d_isNew widget_saved = false /\ d_modified widget_saved = [] /\
  exists w1 e1 w2 e2,
    st_log (fst r) = st_log saved_st ++ [(w1, e1); (w2, e2)] /\
    h_action e1 = update /\ h_action e2 = softDelete /\
    changes e2 = {[ "deletedAt" := VDate 5 ]} /\
    (doc_get widget_saved "deletedAt" <> VDate 5 -> changes e1 = changes e2) /\
    (doc_get widget_saved "deletedAt" = VDate 5 -> changes e1 = ∅).
Proof.
  intros r. split; [reflexivity|]. split; [reflexivity|].
  apply (softDelete_clean_doc_save_changes "Widget" [] no_failure 5 widget_saved
           (res_val widget_saved (snd r)) saved_st (fst r)); reflexivity.
Defined.

Lemma restore_clean_doc_save_changes_witness :
  let r := restore_m "Widget" [] no_failure widget_saved saved_st in
  d_isNew widget_saved = false /\ d_modified widget_saved = [] /\
  exists w1 e1 w2 e2,
    st_log (fst r) = st_log saved_st ++ [(w1, e1); (w2, e2)] /\
    h_action e1 = update /\ h_action e2 = restore /\
    changes e2 = {[ "deletedAt" := VNull ]} /\
    (doc_get widget_saved "deletedAt" = VNull -> changes e1 = ∅) /\
    (doc_get widget_saved "deletedAt" <> VNull -> changes e1 = changes e2).
Proof.
  intros r. split; [reflexivity|]. split; [reflexivity|].
  apply (restore_clean_doc_save_changes "Widget" [] no_failure widget_saved
           (res_val widget_saved (snd r)) saved_st (fst r)); reflexivity.
Defined.

(** ** A save whose own write fails *)

Section SaveWriteFailure.
Variables (opt_modelName : string) (ctx : list (string * value))
  (store_error : list (writer * entry) -> writer * entry -> option nat).

(** The hook's entry is written before the document: when the write of
    [save()] itself then fails (a new document whose [_id] is taken, E11000;
    a saved document no longer in the collection, DocumentNotFoundError;
    an update through a value that is not an object), [save()] fails with
    that error, the collection is unchanged, and the [create]/[update]
    entry stays in the audit log. *)
Theorem save_write_failure_keeps_entry (d : doc) (st st1 : St) (er : err) :
  pre_save opt_modelName ctx store_error d st = (st1, Ok tt) ->
  save_write d (st_db st) = inl er ->
  save opt_modelName ctx store_error d st = (st1, Err er) /\
  (exists w e, st_log st1 = st_log st ++ [(w, e)] /\
     h_action e = (if d_isNew d then create else update)) /\
  st_db st1 = st_db st.
Proof.
  intros Hp Hw.
  assert (Hp' := Hp). unfold pre_save in Hp'.
  destruct (createHistoryEntry_ok _ _ _ _ _ _ _ _ _ _ Hp') as (w & e & V & _ & Hl & Hd).
  apply validate_raw_fields in V as (_ & _ & _ & _ & Ha).
  split.
  - unfold save, bindM at 1. rewrite Hp. unfold bindM, getsM. cbv beta iota.
    rewrite Hd, Hw. reflexivity.
  - split; [|exact Hd]. exists w, e. split; [exact Hl|exact Ha].
Qed.

End SaveWriteFailure.

Lemma save_write_failure_keeps_entry_witness :
  pre_save "Widget" [] no_failure widget_new saved_st =
    (fst (pre_save "Widget" [] no_failure widget_new saved_st), Ok tt) /\
  save_write widget_new (st_db saved_st) = inl (EStore 11000) /\
  save_write widget_renamed (st_db empty_st) = inl ENotFound /\
  let st1 := fst (pre_save "Widget" [] no_failure widget_new saved_st) in
  save "Widget" [] no_failure widget_new saved_st = (st1, Err (EStore 11000)) /\
  (exists w e, st_log st1 = st_log saved_st ++ [(w, e)] /\
     h_action e = (if d_isNew widget_new then create else update)) /\
  st_db st1 = st_db saved_st.
Proof.
  split; [reflexivity|]. split; [reflexivity|]. split; [reflexivity|].
  apply (save_write_failure_keeps_entry "Widget" [] no_failure widget_new saved_st);
    reflexivity.
Defined.

(** ** Deleting a document, and the single-document queries without sort *)

Section Deletion.
Variables (opt_modelName : string) (ctx : list (string * value))
  (store_error : list (writer * entry) -> writer * entry -> option nat)
  (apply_update : obj -> obj -> obj) (model_db : nat).

(** A successful [doc.deleteOne()] writes exactly one [hardDelete] entry
    for the document, with empty changes and the full document as
    snapshot, then removes the document from the collection. *)
Theorem deleteOne_logs_hardDelete (d : doc) (st st' : St) (u : unit) :
  deleteOne opt_modelName ctx store_error d st = (st', Ok u) ->
  exists w e, st_log st' = st_log st ++ [(w, e)] /\
    st_db st' = db_remove (d_id d) (st_db st) /\
    h_action e = hardDelete /\ originalId e = d_id d /\ changes e = ∅ /\
    snapshot e = Some (toObject d).
Proof.
  unfold deleteOne, pre_deleteOne, bindM at 1.
  destruct (createHistoryEntry opt_modelName ctx store_error d hardDelete ∅
              (Some (toObject d)) st) as [st1 [v|er]] eqn:E; [|discriminate].
  destruct (createHistoryEntry_ok _ _ _ _ _ _ _ _ _ _ E) as (w & e & V & _ & Hl & Hd).
  apply validate_raw_fields in V as (Hi & Hc & Hs & _ & Ha).
  unfold set_db, modifyM. intros H. injection H as <- _.
  cbn [raw_of r_originalId r_changes r_snapshot r_action] in Hi, Hc, Hs, Ha.
  exists w, e. cbn [st_log st_db]. rewrite Hl, Hd. auto 7.
Qed.

(** Without a [sort] option, the entry written by the hook of
    [findOneAndUpdate] is about the document the operation updates: the
    patch as changes, the patched current document as snapshot. *)
Theorem findOneAndUpdate_nosort_ok (q : query) (st st' : St) (p : string * obj) :
  q_sort q = None ->
  findOneAndUpdate opt_modelName ctx store_error apply_update model_db q st =
    (st', Ok (Some p)) ->
  exists w e, st_log st' = st_log st ++ [(w, e)] /\
    st_db st' = db_upsert (fst p) (apply_update (q_update q) (snd p)) (st_db st) /\
    patch_entry (q_update q) (with_id p) (fst p) e.
Proof.
  intros Hs.
  unfold findOneAndUpdate, findOneAndUpdate_op, pre_findOneAndUpdate,
    model_findOne, model_find, target, getsM, bindM, retM.
  cbv beta iota. fold (matches q).
  destruct (List.filter (matches q) (st_db st)) as [|p0 rest] eqn:F; simpl.
  - rewrite F. simpl. unfold set_db, modifyM.
    destruct (q_upsert q) as [[? ?]|]; simpl; intros H; discriminate.
  - destruct (createHistoryEntry opt_modelName ctx store_error (hydrate model_db p0)
                update (q_update q) (Some (q_update q ∪ toObject (hydrate model_db p0))) st)
      as [st1 [u|er]] eqn:E; [|discriminate].
    destruct (createHistoryEntry_ok _ _ _ _ _ _ _ _ _ _ E) as (w & e & V & _ & Hl & Hd).
    apply patch_entry_of_raw in V.
    rewrite Hd, F, Hs. simpl. unfold set_db, modifyM. simpl.
    intros H. injection H as <- <-.
    exists w, e. simpl. rewrite Hl, Hd. auto.
Qed.

End Deletion.

Lemma deleteOne_logs_hardDelete_witness :
  let r := deleteOne "Widget" [] no_failure widget_saved saved_st in
  snd r = Ok tt /\
  exists w e, st_log (fst r) = st_log saved_st ++ [(w, e)] /\
    st_db (fst r) = db_remove (d_id widget_saved) (st_db saved_st) /\
    h_action e = hardDelete /\ originalId e = d_id widget_saved /\ changes e = ∅ /\
    snapshot e = Some (toObject widget_saved).
Proof.
  intros r. split; [reflexivity|].
  apply (deleteOne_logs_hardDelete "Widget" [] no_failure widget_saved saved_st
           (fst r) tt).
  reflexivity.
Defined.

(** [Model.findOneAndDelete({})]: no sort. *)
Definition delete_first : query := mkQuery (fun _ => true) None ∅ None.

Lemma findOneAndDelete_nosort_ok_witness :
  let r := findOneAndDelete "Widget" [] no_failure 1 delete_first two_docs_st in
  q_sort delete_first = None /\ snd r = Ok (Some doc_a) /\
  exists w e,
    st_log (fst r) = st_log two_docs_st ++ [(w, e)] /\
    st_db (fst r) = db_remove (fst doc_a) (st_db two_docs_st) /\
    h_action e = hardDelete /\ originalId e = fst doc_a /\
    changes e = ∅ /\ snapshot e = Some (with_id doc_a) /\ snapshot e <> Some ∅.
Proof.
  intros r. split; [reflexivity|]. split; [reflexivity|].
  apply (findOneAndDelete_nosort_ok "Widget" [] no_failure 1 delete_first
           two_docs_st (fst r) doc_a); reflexivity.
Defined.

Lemma findOneAndUpdate_nosort_ok_witness :
  let r := findOneAndUpdate "Widget" [] no_failure keep_doc 1 set_name_b two_docs_st in
  q_sort set_name_b = None /\ snd r = Ok (Some doc_a) /\
  exists w e, st_log (fst r) = st_log two_docs_st ++ [(w, e)] /\
    st_db (fst r) = db_upsert (fst doc_a) (keep_doc (q_update set_name_b) (snd doc_a))
                      (st_db two_docs_st) /\
    patch_entry (q_update set_name_b) (with_id doc_a) (fst doc_a) e.
Proof.
  intros r. split; [reflexivity|]. split; [reflexivity|].
  apply (findOneAndUpdate_nosort_ok "Widget" [] no_failure keep_doc 1 set_name_b
           two_docs_st (fst r) doc_a); reflexivity.
Defined.
